(** * PyGuardian: the fairness and robustness probes of [AIEthicsFramework]

    A shallow embedding of [src/PYAIGuardian.py].  The class computes a
    demographic-parity score per sensitive attribute and an adversarial
    robustness score, on top of pandas / NumPy.  The embedding keeps

    - Python exceptions as an explicit [result] type,
    - NumPy's ambient random generator as explicit state (monad [M]),
    - NumPy floating-point values as exact rationals kept in lowest terms,
      extended with [NaN] (the value [np.mean] gives on an empty array).
      Arithmetic is exact: the rounding of doubles, their overflow to
      infinity and the conversion of large integers are left out, so a
      statement of equality with a formula holds of the program up to
      rounding, and statements about predictions are made for values far
      from the overflow threshold,
    - a pandas [DataFrame] as a list of named columns of cells, a cell
      being a finite number, a string or a missing value (pandas' NaN).

    Methods are functions of the instance [self]; the constructor and the
    [evaluate] dispatcher are not part of the development.  *)

From Stdlib Require Import QArith Qreduction Qminmax Qabs Lqa.
From stdpp Require Import gmap strings list.

Local Open Scope string_scope.
Local Open Scope list_scope.

(** ** Python exceptions and fallible results *)

(** The built-in exception classes the modelled code can raise; any other
    class is carried by name. *)
Inductive pyexn : Type :=
  | KeyError
  | ValueError
  | TypeError
  | IndexError
  | AttributeError
  | OtherError (name : string).

Inductive result (A : Type) : Type :=
  | Ok (a : A)
  | Raise (e : pyexn).
Arguments Ok {A} a.
Arguments Raise {A} e.

#[global] Instance result_ret : MRet result := fun A a => Ok a.
#[global] Instance result_bind : MBind result := fun A B f r =>
  match r with
  | Ok a => f a
  | Raise e => Raise e
  end.

Definition is_ok {A} (r : result A) : bool :=
  match r with Ok _ => true | Raise _ => false end.

(** ** NumPy scalars *)

Inductive npfloat : Type :=
  | Fin (q : Q)
  | NaN.

(** Every finite value produced by an operation is stored reduced. *)
Definition fl (q : Q) : npfloat := Fin (Qred q).

Definition np_add (a b : npfloat) : npfloat :=
  match a, b with
  | Fin x, Fin y => fl (x + y)
  | _, _ => NaN
  end.

Definition np_sub (a b : npfloat) : npfloat :=
  match a, b with
  | Fin x, Fin y => fl (x - y)
  | _, _ => NaN
  end.

(** Division by a positive integer count (the [len] of a non-empty literal
    list). *)
Definition np_div_pos (a : npfloat) (n : positive) : npfloat :=
  match a with
  | Fin x => fl (x / inject_Z (Zpos n))
  | NaN => NaN
  end.

(** [a < b]; every comparison with [NaN] is false. *)
Definition np_ltb (a b : npfloat) : bool :=
  match a, b with
  | Fin x, Fin y => negb (Qle_bool y x)
  | _, _ => false
  end.

Definition Qsum (xs : list Q) : Q := foldr Qplus 0%Q xs.

Definition mean_Q (xs : list Q) : Q :=
  (Qsum xs / inject_Z (Z.of_nat (length xs)))%Q.

(** [np.mean]: the sum divided by the count; [0/0] on an empty array is
    [nan]. *)
Definition np_mean (xs : list Q) : npfloat :=
  match xs with
  | [] => NaN
  | _ :: _ => fl (mean_Q xs)
  end.

Definition Qof_bool (b : bool) : Q := if b then 1%Q else 0%Q.

(** Python's [max] / [min] on a sequence: keep the first item and replace it
    whenever a later item compares strictly greater / smaller; [ValueError]
    on an empty sequence. *)
Definition py_max (xs : list npfloat) : result npfloat :=
  match xs with
  | [] => Raise ValueError
  | x :: r => Ok (foldl (fun m item => if np_ltb m item then item else m) x r)
  end.

Definition py_min (xs : list npfloat) : result npfloat :=
  match xs with
  | [] => Raise ValueError
  | x :: r => Ok (foldl (fun m item => if np_ltb item m then item else m) x r)
  end.

(** Python's [sum]: starts from the integer [0]. *)
Definition py_sum (xs : list npfloat) : npfloat :=
  foldl np_add (Fin 0%Q) xs.

(** ** pandas data frames *)

(** A cell is a number, a string (a categorical value) or a missing value
    (NaN). *)
Inductive cell : Type :=
  | Num (q : Q)
  | Str (s : string)
  | Missing.

(** Python [==] on cells: numeric equality on numbers, string equality on
    strings, [False] across the two and whenever a side is missing (NaN
    equals nothing, not even itself). *)
Definition cell_eqb (a b : cell) : bool :=
  match a, b with
  | Num x, Num y => Qeq_bool x y
  | Str s, Str t => String.eqb s t
  | _, _ => false
  end.

(** Named columns, in order. *)
Definition DataFrame : Type := list (string * list cell).

Definition nrows (data : DataFrame) : nat :=
  match data with
  | [] => 0
  | (_, col) :: _ => length col
  end.

Definition ncols (data : DataFrame) : nat := length data.

(** [data.shape] *)
Definition shape (data : DataFrame) : nat * nat := (nrows data, ncols data).

(** All columns have the length of the index. *)
Definition wf_frame (data : DataFrame) : bool :=
  forallb (fun c => Nat.eqb (length (snd c)) (nrows data)) data.

(** The columns that carry a label, in order. *)
Fixpoint columns_named (data : DataFrame) (attribute : string) : list (list cell) :=
  match data with
  | [] => []
  | (name, col) :: rest =>
      if String.eqb name attribute
      then col :: columns_named rest attribute
      else columns_named rest attribute
  end.

(** [data[attribute]] used as a Series, as lines 70-71 do: the column when
    the label occurs once, [KeyError] when it is absent.  For a repeated
    label pandas returns a frame, which has no [unique] method: line 70
    raises [AttributeError]. *)
Definition getitem (data : DataFrame) (attribute : string) : result (list cell) :=
  match columns_named data attribute with
  | [] => Raise KeyError
  | [col] => Ok col
  | _ :: _ :: _ => Raise AttributeError
  end.

(** The equality [unique] groups by: as [==], except that missing values
    count as one value. *)
Definition cell_same (a b : cell) : bool :=
  match a, b with
  | Missing, Missing => true
  | _, _ => cell_eqb a b
  end.

(** [Series.unique()]: the distinct values in order of first appearance. *)
Fixpoint unique (xs : list cell) : list cell :=
  match xs with
  | [] => []
  | x :: r => x :: filter (fun y => negb (cell_same x y)) (unique r)
  end.

(** [series == group]: the boolean mask. *)
Definition series_eq (col : list cell) (group : cell) : list bool :=
  map (fun c => cell_eqb c group) col.

Fixpoint select {A} (xs : list A) (mask : list bool) : list A :=
  match xs, mask with
  | x :: xs', b :: mask' => if b then x :: select xs' mask' else select xs' mask'
  | _, _ => []
  end.

(** [predictions[mask]]: boolean-mask indexing; [IndexError] when the mask
    and the array differ in length. *)
Definition getitem_mask (predictions : list Q) (mask : list bool)
  : result (list Q) :=
  if Nat.eqb (length mask) (length predictions)
  then Ok (select predictions mask)
  else Raise IndexError.

(** A Python [dict] keyed by cells, in insertion order: assignment replaces
    the value of an existing key in place. *)
Fixpoint dict_set (d : list (cell * npfloat)) (k : cell) (v : npfloat)
  : list (cell * npfloat) :=
  match d with
  | [] => [(k, v)]
  | (k', v') :: rest =>
      if cell_eqb k' k then (k', v) :: rest else (k', v') :: dict_set rest k v
  end.

Definition dict_values (d : list (cell * npfloat)) : list npfloat := map snd d.

(** ** The random generator and the effect monad *)

(** NumPy's global generator: the stream of standard-normal draws still to
    come and how many have been consumed. *)
Record RandomState : Type := mkRandomState {
  gauss : nat -> Q;
  position : nat
}.

Definition M (A : Type) : Type := RandomState -> result A * RandomState.

#[global] Instance M_ret : MRet M := fun A a s => (Ok a, s).
#[global] Instance M_bind : MBind M := fun A B f m s =>
  match m s with
  | (Ok a, s') => f a s'
  | (Raise e, s') => (Raise e, s')
  end.

Definition lift {A} (r : result A) : M A := fun s => (r, s).

Definition raise {A} (e : pyexn) : M A := fun s => (Raise e, s).

(** [np.random.normal(loc, scale, (rows, cols))]: [rows * cols] draws, each
    [loc + scale * z], laid out row by row. *)
Definition normal_row (loc scale : Q) (g : nat -> Q) (start cols : nat) : list Q :=
  map (fun j => (loc + scale * g (start + j)%nat)%Q) (seq 0 cols).

Definition np_random_normal (loc scale : Q) (shp : nat * nat) : M (list (list Q)) :=
  fun s =>
    let '(rows, cols) := shp in
    (Ok (map (fun i => normal_row loc scale (gauss s) (position s + i * cols) cols)
             (seq 0 rows)),
     mkRandomState (gauss s) (position s + rows * cols)).

(** ** Array arithmetic used by the robustness probe *)

(** Adding a float to a cell: numbers add, a missing value stays missing;
    a string operand makes pandas raise [TypeError]. *)
Definition cell_add (c : cell) (e : Q) : result cell :=
  match c with
  | Num x => Ok (Num (Qred (x + e)))
  | Str _ => Raise TypeError
  | Missing => Ok Missing
  end.

Fixpoint column_add (col : list cell) (noise : list Q) : result (list cell) :=
  match col, noise with
  | [], [] => Ok []
  | c :: col', e :: noise' =>
      c' ← cell_add c e;
      r ← column_add col' noise';
      Ok (c' :: r)
  | _, _ => Raise ValueError
  end.

(** Column [j] of a row-major array. *)
Definition array_column (j : nat) (noise : list (list Q)) : list Q :=
  map (fun row => nth j row 0%Q) noise.

Fixpoint frame_add_from (j : nat) (data : DataFrame) (noise : list (list Q))
  : result DataFrame :=
  match data with
  | [] => Ok []
  | (name, col) :: rest =>
      col' ← column_add col (array_column j noise);
      rest' ← frame_add_from (S j) rest noise;
      Ok ((name, col') :: rest')
  end.

(** [data + noise] for an array of the frame's shape: elementwise, on every
    column. *)
Definition frame_add (data : DataFrame) (noise : list (list Q)) : result DataFrame :=
  frame_add_from 0 data noise.

(** [a == b] on one-dimensional arrays: elementwise, a length-one operand
    is broadcast, other length mismatches raise [ValueError]. *)
Definition np_eq (a b : list Q) : result (list bool) :=
  if Nat.eqb (length a) (length b) then Ok (zip_with Qeq_bool a b)
  else match a, b with
       | [x], _ => Ok (map (Qeq_bool x) b)
       | _, [y] => Ok (map (fun x => Qeq_bool x y) a)
       | _, _ => Raise ValueError
       end.

(** ** The model under assessment *)

(** [model.predict]: an opaque, deterministic prediction function that may
    raise. *)
Record Model : Type := mkModel {
  predict : DataFrame -> result (list Q)
}.

(** ** class AIEthicsFramework *)

Abbreviation scores := (gmap string npfloat).

(** Methods that [assess_fairness] and [assess_robustness] look up on [self]
    at run time.  A slot holds [None] when the class gives no definition. *)
Record Instance : Type := mkInstance {
  _calculate_equal_opportunity :
    option (Model -> DataFrame -> list string -> M scores);
  _calculate_disparate_impact :
    option (Model -> DataFrame -> list string -> M scores);
  _check_out_of_distribution_performance :
    option (Model -> DataFrame -> M npfloat);
  _check_stability_under_data_perturbations :
    option (Model -> DataFrame -> M npfloat)
}.

(** The class as the source file defines it: none of the four is defined. *)
Definition AIEthicsFramework : Instance :=
  mkInstance None None None None.

(** Attribute lookup on [self]. *)
Definition getattr {A} (slot : option A) : M A :=
  match slot with
  | Some f => mret f
  | None => raise AttributeError
  end.

(** Lines 69-73: the acceptance rate of every group. *)
Fixpoint group_rates_loop (predictions : list Q) (col : list cell)
    (groups : list cell) (group_acceptance_rates : list (cell * npfloat))
  : result (list (cell * npfloat)) :=
  match groups with
  | [] => Ok group_acceptance_rates
  | group :: rest =>
      let group_mask := series_eq col group in
      selected ← getitem_mask predictions group_mask;
      let group_acceptance_rate := np_mean selected in
      group_rates_loop predictions col rest
        (dict_set group_acceptance_rates group group_acceptance_rate)
  end.

(** Lines 69-76: the body of the loop over the sensitive attributes. *)
Definition attribute_parity (predictions : list Q) (data : DataFrame)
    (attribute : string) : result npfloat :=
  col ← getitem data attribute;
  group_acceptance_rates ← group_rates_loop predictions col (unique col) [];
  hi ← py_max (dict_values group_acceptance_rates);
  lo ← py_min (dict_values group_acceptance_rates);
  let max_diff := np_sub hi lo in
  Ok (np_sub (Fin 1%Q) max_diff).

(** Lines 67-78. *)
Fixpoint parity_loop (predictions : list Q) (data : DataFrame)
    (sensitive_attributes : list string) (demographic_parity : scores)
  : result scores :=
  match sensitive_attributes with
  | [] => Ok demographic_parity
  | attribute :: rest =>
      score ← attribute_parity predictions data attribute;
      parity_loop predictions data rest (<[attribute := score]> demographic_parity)
  end.

Definition _calculate_demographic_parity (model : Model) (data : DataFrame)
    (sensitive_attributes : list string) : M scores :=
  predictions ← lift (predict model data);
  let overall_acceptance_rate := np_mean predictions in
  lift (parity_loop predictions data sensitive_attributes ∅).

Definition assess_fairness (self : Instance) (model : Model) (data : DataFrame)
    (sensitive_attributes : list string) : M (gmap string scores) :=
  dp ← _calculate_demographic_parity model data sensitive_attributes;
  equal_opportunity ← getattr (_calculate_equal_opportunity self);
  eo ← equal_opportunity model data sensitive_attributes;
  disparate_impact ← getattr (_calculate_disparate_impact self);
  di ← disparate_impact model data sensitive_attributes;
  mret (<["disparate_impact" := di]>
         (<["equal_opportunity" := eo]>
           (<["demographic_parity" := dp]> ∅))).

(** Line 181 with the scale left open: [test_data + np.random.normal(0,
    epsilon, test_data.shape)]. *)
Definition perturb (epsilon : Q) (test_data : DataFrame) : M DataFrame :=
  noise ← np_random_normal 0%Q epsilon (shape test_data);
  lift (frame_add test_data noise).

(** Lines 181-185 at a given scale. *)
Definition adversarial_robustness_at (epsilon : Q) (model : Model)
    (test_data : DataFrame) : M npfloat :=
  perturbed_data ← perturb epsilon test_data;
  original_predictions ← lift (predict model test_data);
  perturbed_predictions ← lift (predict model perturbed_data);
  agree ← lift (np_eq original_predictions perturbed_predictions);
  mret (np_mean (map Qof_bool agree)).

Definition _check_adversarial_robustness (model : Model) (test_data : DataFrame)
  : M npfloat :=
  let epsilon := (1 # 10)%Q in
  adversarial_robustness_at epsilon model test_data.

Definition assess_robustness (self : Instance) (model : Model)
    (test_data : DataFrame) : M npfloat :=
  adversarial ← _check_adversarial_robustness model test_data;
  out_of_distribution ← getattr (_check_out_of_distribution_performance self);
  ood ← out_of_distribution model test_data;
  stability ← getattr (_check_stability_under_data_perturbations self);
  stab ← stability model test_data;
  let checklist := [adversarial; ood; stab] in
  mret (np_div_pos (py_sum checklist) (Pos.of_nat (length checklist))).

(** Running a computation from a generator state. *)
Definition outcome {A} (m : M A) (s : RandomState) : result A := fst (m s).

(** The entry of a score map returned by a call, if any. *)
Definition score_at (r : result scores) (attribute : string) : option npfloat :=
  match r with
  | Ok dp => dp !! attribute
  | Raise _ => None
  end.

(** ** Vocabulary of the statements *)

(** [data.columns] *)
Definition column_names (data : DataFrame) : list string := map fst data.

Definition is_num (c : cell) : bool :=
  match c with Num _ | Missing => true | Str _ => false end.

(** Every cell of the frame is a number (possibly missing). *)
Definition numeric_frame (data : DataFrame) : bool :=
  forallb (fun c => forallb is_num (snd c)) data.


(** Magnitudes far below the largest double (about [2^1024]): sums of such
    predictions do not overflow. *)
Definition prediction_bound : Q := inject_Z (2 ^ 500).

Definition moderate (p : Q) : Prop := (Qabs p <= prediction_bound)%Q.

(** An attribute the parity loop can score: its label names one column,
    which is not empty, has no missing value, and is as long as the
    prediction vector. *)
Definition scorable (data : DataFrame) (predictions : list Q) (attribute : string)
  : Prop :=
  exists col,
    getitem data attribute = Ok col /\ col <> [] /\ (Missing ∉ col) /\
    length col = length predictions.

(** Earlier entries of [unique] never compare equal to later ones. *)
Fixpoint ordered_distinct (l : list cell) : Prop :=
  match l with
  | [] => True
  | x :: r => Forall (fun y => cell_eqb x y = false) r /\ ordered_distinct r
  end.

(** The acceptance rate line 72 computes for one group. *)
Definition group_rate (predictions : list Q) (col : list cell) (group : cell)
  : npfloat :=
  np_mean (select predictions (series_eq col group)).

(** The same rate as an exact rational: the mean of the predictions at the
    indices where the column equals the group. *)
Definition group_rate_Q (predictions : list Q) (col : list cell) (group : cell)
  : Q :=
  mean_Q (select predictions (series_eq col group)).

(** Largest and smallest element of a non-empty list of rationals. *)
Definition Qmax_list (x : Q) (r : list Q) : Q := foldl Qmax x r.
Definition Qmin_list (x : Q) (r : list Q) : Q := foldl Qmin x r.

Definition in_unit (q : Q) : Prop := (0 <= q)%Q /\ (q <= 1)%Q.

(** The score in the words of the specification: the spread subtracted from
    one, then clamped to the unit interval. *)
Definition spec_clamp01 (q : Q) : Q := Qmax 0 (Qmin 1 q).

Definition spec_parity_score (rate0 : Q) (rates : list Q) : Q :=
  spec_clamp01 (1 - (Qmax_list rate0 rates - Qmin_list rate0 rates)).

(** The array [np.random.normal(loc, scale, data.shape)] drawn in state [s]. *)
Definition noise_array (loc scale : Q) (data : DataFrame) (s : RandomState)
  : list (list Q) :=
  map (fun i => normal_row loc scale (gauss s) (position s + i * ncols data) (ncols data))
      (seq 0 (nrows data)).

(** What [frame_add] returns on a numeric frame, in closed form. *)
Definition shift_cell (c : cell) (e : Q) : cell :=
  match c with
  | Num x => Num (Qred (x + e))
  | Str s => Str s
  | Missing => Missing
  end.

Fixpoint shifted_from (j : nat) (data : DataFrame) (noise : list (list Q))
  : DataFrame :=
  match data with
  | [] => []
  | (name, col) :: rest =>
      (name, zip_with shift_cell col (array_column j noise))
        :: shifted_from (S j) rest noise
  end.

(** A model whose [predict] returns the label [c] for each record, whatever
    the frame. *)
Definition constant_output (model : Model) (c : Q) : Prop :=
  forall d, predict model d = Ok (replicate (nrows d) c).

(** ** Sample inputs *)

Definition region_column : list cell := [Str "A"; Str "A"; Str "B"; Str "B"].

Definition region_frame : DataFrame := [("region", region_column)].



(** A frame with two columns of the same label. *)
Definition twin_region_frame : DataFrame :=
  [("region", region_column); ("region", region_column)].

Definition ten_region_column : list cell :=
  [Str "A"; Str "A"; Str "A"; Str "A"; Str "A";
   Str "B"; Str "B"; Str "B"; Str "B"; Str "B"].

Definition ten_region_frame : DataFrame := [("region", ten_region_column)].

Definition ten_predictions : list Q := [1; 0; 0; 0; 0; 1; 1; 1; 1; 0]%Q.

(** A frame whose sensitive attribute is stored as a number. *)
Definition coded_frame : DataFrame :=
  [("income", [Num 1%Q; Num 2%Q]); ("gender", [Num 0%Q; Num 1%Q])].

(** A frame with a column and no record. *)
Definition empty_frame : DataFrame := [("income", [])].

(** A model that returns a fixed prediction vector. *)
Definition fixed_model (predictions : list Q) : Model :=
  mkModel (fun _ => Ok predictions).

Definition constant_model (c : Q) : Model :=
  mkModel (fun d => Ok (replicate (nrows d) c)).

(** A model on one-cell frames that predicts 1 above the threshold 1. *)
Definition threshold_model : Model :=
  mkModel (fun d =>
    match d with
    | [(_, [Num x])] => Ok [Qof_bool (negb (Qle_bool x 1))]
    | _ => Raise ValueError
    end).

(** A generator whose draws are all 0, and one whose draws are 1, 2, 3, ... *)
Definition zero_state : RandomState := mkRandomState (fun _ => 0%Q) 0.

Definition ramp_state : RandomState :=
  mkRandomState (fun k => inject_Z (Z.of_nat (S k))) 0.

(** ** Keyword checks on documentation text *)

(** Text is a string of ASCII characters.  [str.lower]: the letters A-Z
    are mapped to a-z, every other character is kept. *)
Definition lower_char (c : Ascii.ascii) : Ascii.ascii :=
  let n := Ascii.nat_of_ascii c in
  if Nat.leb 65 n && Nat.leb n 90 then Ascii.ascii_of_nat (n + 32) else c.

Fixpoint lower (s : string) : string :=
  match s with
  | EmptyString => EmptyString
  | String c r => String (lower_char c) (lower r)
  end.

Fixpoint starts_with (s prefix : string) : bool :=
  match prefix, s with
  | EmptyString, _ => true
  | String a p, String b r => Ascii.eqb a b && starts_with r p
  | String _ _, EmptyString => false
  end.

(** [needle in haystack] on strings: [needle] occurs as a substring. *)
Fixpoint contains (haystack needle : string) : bool :=
  starts_with haystack needle
  || match haystack with
     | EmptyString => false
     | String _ r => contains r needle
     end.

(** [sum(1 for keyword in keywords if keyword.lower() in text.lower())] *)
Definition keyword_hits (keywords : list string) (text : string) : nat :=
  length (filter (fun keyword => contains (lower text) (lower keyword)) keywords).

(** [a / b] on Python integers: true division, [ZeroDivisionError] when
    [b] is zero. *)
Definition py_truediv (a b : nat) : result npfloat :=
  match b with
  | O => Raise (OtherError "ZeroDivisionError")
  | S _ => Ok (fl (inject_Z (Z.of_nat a) / inject_Z (Z.of_nat b)))
  end.

Definition architecture_keywords : list string :=
  ["architecture"; "layers"; "neurons"; "activation functions"].

Definition _check_model_architecture_disclosure (documentation : string)
  : result npfloat :=
  let keywords := architecture_keywords in
  let score := keyword_hits keywords documentation in
  py_truediv score (length keywords).

Definition minimization_keywords : list string :=
  ["data minimization"; "collect only necessary"; "limit data collection"].

Definition _check_data_minimization (procedures : string) : result npfloat :=
  let keywords := minimization_keywords in
  let score := keyword_hits keywords procedures in
  py_truediv score (length keywords).

(** The checklist methods that [assess_transparency] and [assess_privacy]
    look up on [self]; a slot holds [None] when the class gives no
    definition. *)
Record TextChecks : Type := mkTextChecks {
  _check_training_data_description : option (string -> M npfloat);
  _check_performance_metrics_disclosure : option (string -> M npfloat);
  _check_limitations_disclosure : option (string -> M npfloat);
  _check_anonymization_techniques : option (string -> M npfloat);
  _check_consent_mechanisms : option (string -> M npfloat);
  _check_data_retention_policies : option (string -> M npfloat)
}.

(** The class as the source file defines it: none of the six is defined. *)
Definition AIEthicsFramework_text : TextChecks :=
  mkTextChecks None None None None None None.

Definition assess_transparency (self : TextChecks) (model : Model)
    (documentation : string) : M npfloat :=
  architecture ← lift (_check_model_architecture_disclosure documentation);
  training_data ← getattr (_check_training_data_description self);
  training ← training_data documentation;
  performance_metrics ← getattr (_check_performance_metrics_disclosure self);
  performance ← performance_metrics documentation;
  limitations_disclosure ← getattr (_check_limitations_disclosure self);
  limitations ← limitations_disclosure documentation;
  let checklist := [architecture; training; performance; limitations] in
  mret (np_div_pos (py_sum checklist) (Pos.of_nat (length checklist))).

Definition assess_privacy (self : TextChecks) (data_handling_procedures : string)
  : M npfloat :=
  minimization ← lift (_check_data_minimization data_handling_procedures);
  anonymization_techniques ← getattr (_check_anonymization_techniques self);
  anonymization ← anonymization_techniques data_handling_procedures;
  consent_mechanisms ← getattr (_check_consent_mechanisms self);
  consent ← consent_mechanisms data_handling_procedures;
  retention_policies ← getattr (_check_data_retention_policies self);
  retention ← retention_policies data_handling_procedures;
  let checklist := [minimization; anonymization; consent; retention] in
  mret (np_div_pos (py_sum checklist) (Pos.of_nat (length checklist))).

(** ** The registry of principles and [evaluate] *)

(** What an assessment returns: a map of fairness metrics or a score. *)
Inductive Report : Type :=
  | FairnessReport (metrics : gmap string scores)
  | ScoreReport (score : npfloat).

(** The keyword arguments [evaluate] passes to every assessment.  The
    arguments no defined method reads have the open type [PyObject]. *)
Record Kwargs (PyObject : Type) : Type := mkKwargs {
  kw_model : Model;
  kw_data : DataFrame;
  kw_sensitive_attributes : list string;
  kw_documentation : string;
  kw_governance_structure : PyObject;
  kw_audit_trail : PyObject;
  kw_data_handling_procedures : string;
  kw_use_case : PyObject;
  kw_risk_assessment : PyObject;
  kw_test_data : DataFrame;
  kw_explainability_method : PyObject
}.
Arguments kw_model {PyObject} _.
Arguments kw_data {PyObject} _.
Arguments kw_sensitive_attributes {PyObject} _.
Arguments kw_documentation {PyObject} _.
Arguments kw_data_handling_procedures {PyObject} _.
Arguments kw_test_data {PyObject} _.

(** The names of the keyword arguments of the call on lines 211-223. *)
Definition evaluate_keywords : list string :=
  ["model"; "data"; "sensitive_attributes"; "documentation";
   "governance_structure"; "audit_trail"; "data_handling_procedures";
   "use_case"; "risk_assessment"; "test_data"; "explainability_method"].

(** A bound method: its parameters after [self] (none has a default),
    whether it takes [**kwargs], and its body. *)
Record Method (PyObject : Type) : Type := mkMethod {
  params : list string;
  var_keyword : bool;
  body : Kwargs PyObject -> M Report
}.
Arguments params {PyObject} _.
Arguments var_keyword {PyObject} _.
Arguments body {PyObject} _ _.
Arguments mkMethod {PyObject} _ _ _.

Definition name_in (name : string) (names : list string) : bool :=
  existsb (String.eqb name) names.

(** Calling a method with keyword arguments only: [TypeError] when a
    keyword matches no parameter (and there is no [**kwargs]) or when a
    parameter receives no value. *)
Definition call_kw {PyObject} (f : Method PyObject) (keywords : list string)
    (kw : Kwargs PyObject) : M Report :=
  if (var_keyword f || forallb (fun k => name_in k (params f)) keywords)
     && forallb (fun p => name_in p keywords) (params f)
  then body f kw
  else raise TypeError.

Definition assess_fairness_method {PyObject} (self : Instance) : Method PyObject :=
  mkMethod ["model"; "data"; "sensitive_attributes"] false
    (fun kw =>
       r ← assess_fairness self (kw_model kw) (kw_data kw)
             (kw_sensitive_attributes kw);
       mret (FairnessReport r)).

Definition assess_transparency_method {PyObject} (self : TextChecks)
  : Method PyObject :=
  mkMethod ["model"; "documentation"] false
    (fun kw =>
       r ← assess_transparency self (kw_model kw) (kw_documentation kw);
       mret (ScoreReport r)).

Definition assess_privacy_method {PyObject} (self : TextChecks) : Method PyObject :=
  mkMethod ["data_handling_procedures"] false
    (fun kw =>
       r ← assess_privacy self (kw_data_handling_procedures kw);
       mret (ScoreReport r)).

Definition assess_robustness_method {PyObject} (self : Instance) : Method PyObject :=
  mkMethod ["model"; "test_data"] false
    (fun kw =>
       r ← assess_robustness self (kw_model kw) (kw_test_data kw);
       mret (ScoreReport r)).

(** The assessment methods the class body defines, by name. *)
Definition class_namespace {PyObject} : list (string * Method PyObject) :=
  [("assess_fairness", assess_fairness_method AIEthicsFramework);
   ("assess_transparency", assess_transparency_method AIEthicsFramework_text);
   ("assess_privacy", assess_privacy_method AIEthicsFramework_text);
   ("assess_robustness", assess_robustness_method AIEthicsFramework)].

(** [self.name] for a method name: the first binding in the namespace of
    the instance's class (a subclass puts its own bindings in front), or
    [AttributeError]. *)
Fixpoint lookup_method {PyObject} (namespace : list (string * Method PyObject))
    (name : string) : result (Method PyObject) :=
  match namespace with
  | [] => Raise AttributeError
  | (n, f) :: rest => if String.eqb n name then Ok f else lookup_method rest name
  end.

(** The dictionary literal of lines 19-27: principle and method name. *)
Definition principle_methods : list (string * string) :=
  [("fairness", "assess_fairness");
   ("transparency", "assess_transparency");
   ("accountability", "assess_accountability");
   ("privacy", "assess_privacy");
   ("safety", "assess_safety");
   ("robustness", "assess_robustness");
   ("explainability", "assess_explainability")].

Fixpoint build_principles {PyObject} (namespace : list (string * Method PyObject))
    (entries : list (string * string))
  : result (list (string * Method PyObject)) :=
  match entries with
  | [] => Ok []
  | (principle, name) :: rest =>
      f ← lookup_method namespace name;
      tail ← build_principles namespace rest;
      Ok ((principle, f) :: tail)
  end.

(** [__init__]: the value stored in [self.principles]. *)
Definition __init__ {PyObject} (namespace : list (string * Method PyObject))
  : result (list (string * Method PyObject)) :=
  build_principles namespace principle_methods.

Fixpoint evaluate_loop {PyObject} (principles : list (string * Method PyObject))
    (kw : Kwargs PyObject) (results : gmap string Report)
  : M (gmap string Report) :=
  match principles with
  | [] => mret results
  | (principle, assessment_func) :: rest =>
      r ← call_kw assessment_func evaluate_keywords kw;
      evaluate_loop rest kw (<[principle := r]> results)
  end.

(** [evaluate], given the value of [self.principles]. *)
Definition evaluate {PyObject} (principles : list (string * Method PyObject))
    (kw : Kwargs PyObject) : M (gmap string Report) :=
  evaluate_loop principles kw ∅.

(** ** Stand-ins for the methods the class leaves undefined *)

(** A text check that returns the score [v] for every text. *)
Definition stub_check (v : Q) : string -> M npfloat := fun _ => mret (Fin v).

Definition stub_text_checks : TextChecks :=
  mkTextChecks (Some (stub_check (1 # 2))) (Some (stub_check 1)) (Some (stub_check 0))
               (Some (stub_check (1 # 2))) (Some (stub_check 1)) (Some (stub_check 0)).

(** A robustness probe that returns the score [v] for every input. *)
Definition stub_probe (v : Q) : Model -> DataFrame -> M npfloat :=
  fun _ _ => mret (Fin v).

Definition stub_instance : Instance :=
  mkInstance None None (Some (stub_probe (1 # 2))) (Some (stub_probe 0)).

(** An assessment a subclass could add: it accepts any keyword and returns
    the score 1. *)
Definition stub_assessment : Method unit :=
  mkMethod [] true (fun _ => mret (ScoreReport (Fin 1%Q))).

(** The namespace of a subclass that defines the three assessments the
    class lacks. *)
Definition subclass_namespace : list (string * Method unit) :=
  [("assess_accountability", stub_assessment);
   ("assess_safety", stub_assessment);
   ("assess_explainability", stub_assessment)] ++ class_namespace.

Definition sample_kwargs : Kwargs unit :=
  mkKwargs unit (constant_model 1) region_frame ["region"] "three layers"
           tt tt "we limit data collection" tt tt coded_frame tt.

(** A fairness metric that scores every listed attribute [v]. *)
Definition stub_metric (v : Q) : Model -> DataFrame -> list string -> M scores :=
  fun _ _ attrs => mret (list_to_map (map (fun a => (a, Fin v)) attrs)).

Definition stub_fair_instance : Instance :=
  mkInstance (Some (stub_metric 1)) (Some (stub_metric (1 # 2))) None None.

(** ** Facts about cells and [unique] *)

Lemma cell_eqb_refl c : c <> Missing -> cell_eqb c c = true.
Proof.
  destruct c as [q|s|]; simpl; intros H.
  - apply Qeq_bool_iff. reflexivity.
  - apply String.eqb_refl.
  - done.
Qed.

Lemma cell_eqb_sym a b : cell_eqb a b = cell_eqb b a.
Proof.
  destruct a as [x|s|], b as [y|t|]; simpl; try reflexivity.
  - apply eq_true_iff_eq. rewrite !Qeq_bool_iff. split; intros H; symmetry; exact H.
  - apply String.eqb_sym.
Qed.

Lemma cell_eqb_trans a b c :
  cell_eqb a b = true -> cell_eqb b c = true -> cell_eqb a c = true.
Proof.
  destruct a as [x|s|], b as [y|t|], c as [z|u|]; simpl; try discriminate.
  - rewrite !Qeq_bool_iff. intros H1 H2. rewrite H1. exact H2.
  - rewrite !String.eqb_eq. congruence.
Qed.

Lemma cell_eqb_same a b : cell_eqb a b = true -> cell_same a b = true.
Proof. destruct a, b; simpl; done. Qed.

Lemma cell_same_false a b : cell_same a b = false -> cell_eqb a b = false.
Proof.
  intros H. destruct (cell_eqb a b) eqn:E; [|reflexivity].
  apply cell_eqb_same in E. congruence.
Qed.

Lemma unique_elem y col : y ∈ unique col -> y ∈ col.
Proof.
  induction col as [|x r IH]; simpl; [done|].
  rewrite !elem_of_cons, list_elem_of_filter. intros [->|[_ H]]; auto.
Qed.

Lemma unique_nil_inv col : unique col = [] -> col = [].
Proof. destruct col; [done | discriminate]. Qed.

Lemma ordered_distinct_filter (P : cell -> bool) l :
  ordered_distinct l -> ordered_distinct (filter P l).
Proof.
  induction l as [|x r IH]; simpl; [done|]. intros [Hx Hr].
  rewrite filter_cons. destruct (decide (P x)); simpl; auto.
  split; [|auto]. apply Forall_forall. intros y Hy.
  apply list_elem_of_filter in Hy as [_ Hy].
  rewrite Forall_forall in Hx. auto.
Qed.

Lemma unique_distinct col : ordered_distinct (unique col).
Proof.
  induction col as [|x r IH]; simpl; [done|]. split.
  - apply Forall_forall. intros y Hy.
    apply list_elem_of_filter in Hy as [Hy _].
    apply cell_same_false. destruct (cell_same x y); [done | reflexivity].
  - by apply ordered_distinct_filter.
Qed.


(** ** Facts about the group loop *)

Lemma dict_set_fresh d k v :
  Forall (fun kv => cell_eqb (fst kv) k = false) d -> dict_set d k v = d ++ [(k, v)].
Proof.
  induction d as [|[k' v'] r IH]; simpl; [done|].
  intros H. inversion H as [|? ? Hk Hr]; subst. simpl in Hk.
  rewrite Hk. f_equal. auto.
Qed.

Lemma series_eq_length col g : length (series_eq col g) = length col.
Proof. unfold series_eq. by rewrite length_map. Qed.

Lemma group_rates_loop_spec predictions col groups acc :
  length col = length predictions ->
  ordered_distinct groups ->
  Forall (fun kv => Forall (fun g => cell_eqb (fst kv) g = false) groups) acc ->
  group_rates_loop predictions col groups acc
  = Ok (acc ++ map (fun g => (g, group_rate predictions col g)) groups).
Proof.
  intros Hlen. revert acc.
  induction groups as [|g r IH]; intros acc Hd Hacc; simpl.
  - by rewrite app_nil_r.
  - destruct Hd as [Hg Hr].
    unfold getitem_mask. rewrite series_eq_length, Hlen, Nat.eqb_refl. simpl.
    rewrite dict_set_fresh.
    + rewrite IH; [by rewrite <- app_assoc | done |].
      apply Forall_app. split.
      * eapply Forall_impl; [exact Hacc|]. intros kv H. by inversion H.
      * constructor; [exact Hg | constructor].
    + eapply Forall_impl; [exact Hacc|]. intros kv H. by inversion H.
Qed.

Lemma dict_values_map (f : cell -> npfloat) l :
  dict_values (map (fun g => (g, f g)) l) = map f l.
Proof. unfold dict_values. rewrite map_map. reflexivity. Qed.

Lemma select_nonempty (predictions : list Q) col g :
  length col = length predictions -> g ∈ col -> g <> Missing ->
  select predictions (series_eq col g) <> [].
Proof.
  intros Hlen Hg Hm. revert predictions Hlen Hg.
  induction col as [|c r IH]; intros predictions Hlen Hg.
  - by apply elem_of_nil in Hg.
  - destruct predictions as [|p ps]; [discriminate|]. simpl in *.
    destruct (cell_eqb c g) eqn:E; [done|].
    apply elem_of_cons in Hg as [->|Hg].
    + rewrite cell_eqb_refl in E by done. discriminate.
    + apply IH; [lia | done].
Qed.

Lemma group_rate_fin predictions col g :
  length col = length predictions -> g ∈ col -> g <> Missing ->
  group_rate predictions col g = Fin (Qred (group_rate_Q predictions col g)).
Proof.
  intros Hlen Hg Hm. unfold group_rate, group_rate_Q, np_mean.
  pose proof (select_nonempty predictions col g Hlen Hg Hm) as Hne.
  destruct (select predictions (series_eq col g)); [done | reflexivity].
Qed.

(** ** Python's [max] and [min] on finite values *)

Lemma Qmax_list_compat x x' r r' :
  (x == x')%Q -> Forall2 Qeq r r' -> (Qmax_list x r == Qmax_list x' r')%Q.
Proof.
  intros Hx Hr. revert x x' Hx.
  induction Hr as [|y y' r r' Hy Hr IH]; intros x x' Hx; simpl; [done|].
  apply IH. by rewrite Hx, Hy.
Qed.

Lemma Qmin_list_compat x x' r r' :
  (x == x')%Q -> Forall2 Qeq r r' -> (Qmin_list x r == Qmin_list x' r')%Q.
Proof.
  intros Hx Hr. revert x x' Hx.
  induction Hr as [|y y' r r' Hy Hr IH]; intros x x' Hx; simpl; [done|].
  apply IH. by rewrite Hx, Hy.
Qed.

Lemma py_max_fin x r :
  exists m, py_max (map Fin (x :: r)) = Ok (Fin m) /\ (m == Qmax_list x r)%Q.
Proof.
  simpl. unfold Qmax_list.
  assert (H : forall a b, (a == b)%Q ->
    exists m, foldl (fun m item => if np_ltb m item then item else m) (Fin a) (map Fin r)
              = Fin m /\ (m == foldl Qmax b r)%Q).
  { induction r as [|y l IH]; intros a b Hab; simpl.
    - by exists a.
    - destruct (Qle_bool y a) eqn:E; simpl.
      + apply IH. apply Qle_bool_iff in E. rewrite <- Hab.
        symmetry. by apply Q.max_l.
      + apply IH. rewrite <- Hab. symmetry. apply Q.max_r.
        apply Qnot_lt_le. intros Hlt. apply Qlt_le_weak in Hlt.
        apply Qle_bool_iff in Hlt. congruence. }
  destruct (H x x) as [m [Hm Heq]]; [reflexivity|].
  exists m. by rewrite Hm.
Qed.

Lemma py_min_fin x r :
  exists m, py_min (map Fin (x :: r)) = Ok (Fin m) /\ (m == Qmin_list x r)%Q.
Proof.
  simpl. unfold Qmin_list.
  assert (H : forall a b, (a == b)%Q ->
    exists m, foldl (fun m item => if np_ltb item m then item else m) (Fin a) (map Fin r)
              = Fin m /\ (m == foldl Qmin b r)%Q).
  { induction r as [|y l IH]; intros a b Hab; simpl.
    - by exists a.
    - destruct (Qle_bool a y) eqn:E; simpl.
      + apply IH. apply Qle_bool_iff in E. rewrite <- Hab.
        symmetry. by apply Q.min_l.
      + apply IH. rewrite <- Hab. symmetry. apply Q.min_r.
        apply Qnot_lt_le. intros Hlt. apply Qlt_le_weak in Hlt.
        apply Qle_bool_iff in Hlt. congruence. }
  destruct (H x x) as [m [Hm Heq]]; [reflexivity|].
  exists m. by rewrite Hm.
Qed.

Lemma Qmax_list_ge x r : (x <= Qmax_list x r)%Q.
Proof.
  revert x. induction r as [|y l IH]; intros x; simpl; [apply Qle_refl|].
  eapply Qle_trans; [apply (Q.le_max_l x y) | apply IH].
Qed.

Lemma Qmin_list_le x r : (Qmin_list x r <= x)%Q.
Proof.
  revert x. induction r as [|y l IH]; intros x; simpl; [apply Qle_refl|].
  eapply Qle_trans; [apply IH | apply (Q.le_min_l x y)].
Qed.

Lemma Qmax_list_unit x r : in_unit x -> Forall in_unit r -> in_unit (Qmax_list x r).
Proof.
  intros Hx Hr. revert x Hx. induction Hr as [|y l Hy Hl IH]; intros x Hx; simpl; [done|].
  apply IH. destruct (Q.max_spec x y) as [[_ E]|[_ E]]; unfold in_unit; rewrite E; done.
Qed.

Lemma Qmin_list_unit x r : in_unit x -> Forall in_unit r -> in_unit (Qmin_list x r).
Proof.
  intros Hx Hr. revert x Hx. induction Hr as [|y l Hy Hl IH]; intros x Hx; simpl; [done|].
  apply IH. destruct (Q.min_spec x y) as [[_ E]|[_ E]]; unfold in_unit; rewrite E; done.
Qed.

(** ** Means of values in the unit interval *)

Lemma Qsum_unit xs :
  Forall in_unit xs ->
  (0 <= Qsum xs)%Q /\ (Qsum xs <= inject_Z (Z.of_nat (length xs)))%Q.
Proof.
  induction 1 as [|x l [Hx0 Hx1] Hl [IH0 IH1]]; simpl.
  - split; apply Qle_refl.
  - split.
    + change 0%Q with (0 + 0)%Q. by apply Qplus_le_compat.
    + rewrite Nat2Z.inj_succ. unfold Z.succ. rewrite inject_Z_plus.
      rewrite (Qplus_comm (inject_Z _)). by apply Qplus_le_compat.
Qed.

Lemma mean_Q_unit xs : xs <> [] -> Forall in_unit xs -> in_unit (mean_Q xs).
Proof.
  intros Hne Hxs. destruct (Qsum_unit xs Hxs) as [H0 H1].
  assert (Hn : (0 < inject_Z (Z.of_nat (length xs)))%Q).
  { change 0%Q with (inject_Z 0). rewrite <- Zlt_Qlt.
    destruct xs; [done | simpl; lia]. }
  unfold mean_Q. split.
  - apply Qle_shift_div_l; [done|]. by rewrite Qmult_0_l.
  - apply Qle_shift_div_r; [done|]. by rewrite Qmult_1_l.
Qed.

Lemma select_Forall {A} (P : A -> Prop) xs mask :
  Forall P xs -> Forall P (select xs mask).
Proof.
  intros H. revert mask. induction H as [|x l Hx Hl IH]; intros [|[] mask]; simpl; auto.
Qed.

Lemma group_rate_Q_unit predictions col g :
  length col = length predictions -> g ∈ col -> g <> Missing ->
  Forall in_unit predictions ->
  in_unit (group_rate_Q predictions col g).
Proof.
  intros Hlen Hg Hm Hp. apply mean_Q_unit.
  - by apply select_nonempty.
  - by apply select_Forall.
Qed.

(** ** The score of one attribute *)

Lemma result_bind_ok {A B} (f : A -> result B) a : (Ok a ≫= f) = f a.
Proof. reflexivity. Qed.

Lemma result_bind_raise {A B} (f : A -> result B) e : (Raise e ≫= f) = Raise e.
Proof. reflexivity. Qed.

Lemma attribute_parity_spec predictions data attribute col :
  getitem data attribute = Ok col ->
  length col = length predictions ->
  col <> [] ->
  Missing ∉ col ->
  exists g0 rest q,
    unique col = g0 :: rest /\
    attribute_parity predictions data attribute = Ok (Fin q) /\
    (q == 1 - (Qmax_list (group_rate_Q predictions col g0)
                         (map (group_rate_Q predictions col) rest)
               - Qmin_list (group_rate_Q predictions col g0)
                           (map (group_rate_Q predictions col) rest)))%Q.
Proof.
  intros Hget Hlen Hne Hmiss.
  destruct (unique col) as [|g0 rest] eqn:Hu.
  { by apply unique_nil_inv in Hu. }
  exists g0, rest.
  unfold attribute_parity. rewrite Hget, result_bind_ok.
  rewrite group_rates_loop_spec; [| done | apply unique_distinct | constructor].
  rewrite result_bind_ok. simpl app. rewrite dict_values_map, Hu.
  set (rq := fun g => Qred (group_rate_Q predictions col g)).
  assert (Hmap : map (group_rate predictions col) (g0 :: rest) = map Fin (rq g0 :: map rq rest)).
  { change (rq g0 :: map rq rest) with (map rq (g0 :: rest)).
    rewrite map_map. apply map_ext_in. intros g Hg.
    assert (Hin : g ∈ col).
    { apply unique_elem. rewrite Hu. by apply list_elem_of_In. }
    apply group_rate_fin; [done | done |]. by intros ->. }
  rewrite Hmap.
  destruct (py_max_fin (rq g0) (map rq rest)) as [hi [Hhi Ehi]].
  destruct (py_min_fin (rq g0) (map rq rest)) as [lo [Hlo Elo]].
  rewrite Hhi, result_bind_ok, Hlo, result_bind_ok.
  cbv zeta. unfold np_sub, fl.
  eexists. split; [reflexivity|]. split; [reflexivity|].
  rewrite !Qred_correct, Ehi, Elo.
  assert (HF : Forall2 Qeq (map rq rest) (map (group_rate_Q predictions col) rest)).
  { clear. induction rest; simpl; constructor; [apply Qred_correct | done]. }
  pose proof (Qmax_list_compat (rq g0) (group_rate_Q predictions col g0) _ _
                (Qred_correct _) HF) as Hmx.
  pose proof (Qmin_list_compat (rq g0) (group_rate_Q predictions col g0) _ _
                (Qred_correct _) HF) as Hmn.
  rewrite Hmx, Hmn. reflexivity.
Qed.


(** ** Column lookup *)

Lemma columns_named_absent data attribute :
  attribute ∉ column_names data -> columns_named data attribute = [].
Proof.
  induction data as [|[name col] rest IH]; simpl; intros H; [done|].
  apply not_elem_of_cons in H as [Hne H].
  destruct (String.eqb name attribute) eqn:E; [|auto].
  apply String.eqb_eq in E. congruence.
Qed.

Lemma getitem_absent data attribute :
  attribute ∉ column_names data -> getitem data attribute = Raise KeyError.
Proof.
  intros H. unfold getitem. by rewrite columns_named_absent.
Qed.

Lemma columns_named_elem data attribute col :
  col ∈ columns_named data attribute -> (attribute, col) ∈ data.
Proof.
  induction data as [|[name c] rest IH]; simpl; intros H.
  - by apply elem_of_nil in H.
  - destruct (String.eqb name attribute) eqn:E.
    + apply String.eqb_eq in E. subst name.
      apply elem_of_cons in H as [->|H]; [left | right; auto].
    + right. auto.
Qed.

Lemma getitem_elem data attribute col :
  getitem data attribute = Ok col -> (attribute, col) ∈ data.
Proof.
  unfold getitem. intros H. apply columns_named_elem.
  destruct (columns_named data attribute) as [|c [|c' l]]; try discriminate.
  injection H as ->. left.
Qed.

Lemma wf_getitem_length data attribute col :
  wf_frame data = true -> getitem data attribute = Ok col ->
  length col = nrows data.
Proof.
  unfold wf_frame. intros Hwf Hget. apply getitem_elem in Hget.
  rewrite forallb_forall in Hwf. apply list_elem_of_In in Hget.
  specialize (Hwf _ Hget). simpl in Hwf. by apply Nat.eqb_eq in Hwf.
Qed.

(** ** The loop over the sensitive attributes *)

Lemma parity_loop_ok predictions data attrs acc :
  (forall b, b ∈ attrs -> exists v, attribute_parity predictions data b = Ok v) ->
  exists dp,
    parity_loop predictions data attrs acc = Ok dp /\
    (forall a, a ∈ attrs ->
       exists v, attribute_parity predictions data a = Ok v /\ dp !! a = Some v) /\
    (forall a, a ∉ attrs -> dp !! a = acc !! a).
Proof.
  revert acc. induction attrs as [|a rest IH]; intros acc Hall; simpl.
  - exists acc. split; [done|]. split; [|done].
    intros a Ha. by apply elem_of_nil in Ha.
  - destruct (Hall a) as [v Hv]; [left|]. rewrite Hv, result_bind_ok.
    destruct (IH (<[a:=v]> acc)) as [dp [Hdp [Hin Hout]]].
    { intros b Hb. apply Hall. by right. }
    exists dp. split; [done|]. split.
    + intros b Hb. destruct (decide (b ∈ rest)) as [Hr|Hr]; [auto|].
      apply elem_of_cons in Hb as [->|Hb]; [|done].
      exists v. split; [done|]. rewrite (Hout a Hr). apply lookup_insert_eq.
    + intros b Hb. apply not_elem_of_cons in Hb as [Hne Hb].
      rewrite (Hout b Hb). by apply lookup_insert_ne.
Qed.

Lemma parity_loop_ok_inv predictions data attrs acc dp :
  parity_loop predictions data attrs acc = Ok dp ->
  forall b, b ∈ attrs -> exists v, attribute_parity predictions data b = Ok v.
Proof.
  revert acc. induction attrs as [|a rest IH]; intros acc H b Hb.
  - by apply elem_of_nil in Hb.
  - simpl in H. destruct (attribute_parity predictions data a) as [v|e] eqn:E;
      [|discriminate].
    rewrite result_bind_ok in H.
    apply elem_of_cons in Hb as [->|Hb]; [by exists v | by apply (IH _ H)].
Qed.

Lemma parity_loop_first_failure predictions data pre a post acc e :
  (forall b, b ∈ pre -> exists v, attribute_parity predictions data b = Ok v) ->
  attribute_parity predictions data a = Raise e ->
  parity_loop predictions data (pre ++ a :: post) acc = Raise e.
Proof.
  revert acc. induction pre as [|b pre IH]; intros acc Hpre Ha; simpl.
  - by rewrite Ha.
  - destruct (Hpre b) as [v Hv]; [left|]. rewrite Hv, result_bind_ok.
    apply IH; [|done]. intros c Hc. apply Hpre. by right.
Qed.

Lemma parity_loop_raise predictions data attrs acc a :
  a ∈ attrs -> is_ok (attribute_parity predictions data a) = false ->
  exists e, parity_loop predictions data attrs acc = Raise e.
Proof.
  revert acc. induction attrs as [|b rest IH]; intros acc Ha Hf.
  - by apply elem_of_nil in Ha.
  - simpl. destruct (attribute_parity predictions data b) as [v|e] eqn:E.
    + rewrite result_bind_ok. apply IH; [|done].
      apply elem_of_cons in Ha as [->|Ha]; [|done].
      rewrite E in Hf. discriminate.
    + by exists e.
Qed.

Lemma demographic_parity_run model data attrs s :
  _calculate_demographic_parity model data attrs s
  = (match predict model data with
     | Ok predictions => parity_loop predictions data attrs ∅
     | Raise e => Raise e
     end, s).
Proof.
  unfold _calculate_demographic_parity, mbind, M_bind, lift.
  by destruct (predict model data).
Qed.

Lemma attribute_parity_scorable predictions data attribute :
  scorable data predictions attribute ->
  exists col g0 rest q,
    getitem data attribute = Ok col /\ (Missing ∉ col) /\
    length col = length predictions /\ unique col = g0 :: rest /\
    attribute_parity predictions data attribute = Ok (Fin q) /\
    (q == 1 - (Qmax_list (group_rate_Q predictions col g0)
                         (map (group_rate_Q predictions col) rest)
               - Qmin_list (group_rate_Q predictions col g0)
                           (map (group_rate_Q predictions col) rest)))%Q.
Proof.
  intros (col & Hcol & Hne & Hmiss & Hlen).
  destruct (attribute_parity_spec predictions data attribute col Hcol Hlen Hne Hmiss)
    as (g0 & rest & q & Hu & Hq & Heq).
  by exists col, g0, rest, q.
Qed.


Lemma spread_unit hi lo q :
  in_unit hi -> in_unit lo -> (lo <= hi)%Q -> (q == 1 - (hi - lo))%Q ->
  in_unit q /\ (q == spec_clamp01 (1 - (hi - lo)))%Q.
Proof.
  intros [Hh0 Hh1] [Hl0 Hl1] Hle Hq.
  assert (Hu : in_unit q).
  { unfold in_unit. rewrite Hq. split; lra. }
  split; [done|]. destruct Hu as [H0 H1]. unfold spec_clamp01.
  rewrite <- Hq. rewrite (Q.min_r 1 q H1). by rewrite (Q.max_r 0 q H0).
Qed.

(** ** Demographic parity *)

(** C1 (as the code has it).  When the model returns a prediction vector
    of moderate values and every listed attribute names one non-empty column
    without missing values, as long as the prediction vector,
    [_calculate_demographic_parity] returns a score for every attribute, and
    the score is one minus the spread between the largest and the smallest
    group acceptance rate, each rate being the mean of the predictions at the
    group's indices (in exact arithmetic).  No clamping takes place: when
    every prediction lies in the unit interval the score lies there too and
    so coincides with the clamped value, and otherwise it can be negative.
    With regions A,A,B,B the predictions 1,1,0,0 score 0, the predictions
    1,0,1,0 score 1 and the predictions 2,2,0,0 score -1. *)
Theorem demographic_parity_is_one_minus_spread :
  (forall model data attrs predictions s,
     predict model data = Ok predictions ->
     Forall moderate predictions ->
     (forall a, a ∈ attrs -> scorable data predictions a) ->
     exists dp,
       outcome (_calculate_demographic_parity model data attrs) s = Ok dp /\
       forall a, a ∈ attrs ->
         exists col g0 rest q,
           getitem data a = Ok col /\ unique col = g0 :: rest /\
           dp !! a = Some (Fin q) /\
           let rate := group_rate_Q predictions col in
           (q == 1 - (Qmax_list (rate g0) (map rate rest)
                      - Qmin_list (rate g0) (map rate rest)))%Q /\
           (Forall in_unit predictions ->
            in_unit q /\ (q == spec_parity_score (rate g0) (map rate rest))%Q)) /\
  score_at (outcome (_calculate_demographic_parity
                       (fixed_model [1; 1; 0; 0]%Q) region_frame ["region"])
                    zero_state) "region" = Some (Fin 0%Q) /\
  score_at (outcome (_calculate_demographic_parity
                       (fixed_model [1; 0; 1; 0]%Q) region_frame ["region"])
                    zero_state) "region" = Some (Fin 1%Q) /\
  score_at (outcome (_calculate_demographic_parity
                       (fixed_model [2; 2; 0; 0]%Q) region_frame ["region"])
                    zero_state) "region" = Some (Fin (-1)%Q).
Proof.
  split; [|repeat split; vm_compute; reflexivity].
  intros model data attrs predictions s Hp _ Hscorable.
  unfold outcome. rewrite demographic_parity_run, Hp. simpl fst.
  destruct (parity_loop_ok predictions data attrs ∅) as [dp [Hdp [Hin _]]].
  { intros b Hb.
    destruct (attribute_parity_scorable predictions data b (Hscorable b Hb))
      as (col & g0 & rest & q & _ & _ & _ & _ & Hq & _).
    by eexists. }
  exists dp. split; [done|]. intros a Ha.
  destruct (Hin a Ha) as [v [Hv Hlook]].
  destruct (attribute_parity_scorable predictions data a (Hscorable a Ha))
    as (col & g0 & rest & q & Hcol & Hmiss & Hl & Hu & Hq & Heq).
  exists col, g0, rest, q. rewrite Hq in Hv. injection Hv as <-.
  split; [done|]. split; [done|]. split; [done|]. cbv zeta. split; [done|].
  intros Hunit. unfold spec_parity_score.
  assert (Hr : forall g, g ∈ g0 :: rest -> in_unit (group_rate_Q predictions col g)).
  { intros g Hg.
    assert (Hgc : g ∈ col) by (apply unique_elem; by rewrite Hu).
    apply group_rate_Q_unit; [done | done | by intros -> | done]. }
  assert (Hrest : Forall in_unit (map (group_rate_Q predictions col) rest)).
  { apply Forall_forall. intros x Hx. apply list_elem_of_fmap in Hx as [g [-> Hg]].
    apply Hr. by right. }
  apply spread_unit; [| | | done].
  - apply Qmax_list_unit; [apply Hr; left | done].
  - apply Qmin_list_unit; [apply Hr; left | done].
  - eapply Qle_trans; [apply Qmin_list_le | apply Qmax_list_ge].
Qed.

(** C1 as stated fails: with regions A,A,B,B and predictions 2,2,0,0 the
    group rates are 2 and 0, the code returns -1, and the clamped formula
    gives 0. *)
Lemma demographic_parity_not_clamped :
  getitem region_frame "region" = Ok region_column /\
  unique region_column = [Str "A"; Str "B"] /\
  score_at (outcome (_calculate_demographic_parity
                       (fixed_model [2; 2; 0; 0]%Q) region_frame ["region"])
                    zero_state) "region" = Some (Fin (-1)%Q) /\
  ~ (-1 == spec_parity_score
             (group_rate_Q [2; 2; 0; 0]%Q region_column (Str "A"))
             [group_rate_Q [2; 2; 0; 0]%Q region_column (Str "B")])%Q.
Proof.
  split; [reflexivity|]. split; [reflexivity|].
  split; [vm_compute; reflexivity|].
  vm_compute. discriminate.
Qed.

(** A repeated label is no attribute the loop can score: line 70 raises
    [AttributeError]. *)
Lemma repeated_label_raises_AttributeError :
  outcome (_calculate_demographic_parity
             (fixed_model [1; 1; 0; 0]%Q) twin_region_frame ["region"]) zero_state
  = Raise AttributeError.
Proof. reflexivity. Qed.

Lemma region_scorable (predictions : list Q) (a : string) :
  length predictions = 4 -> a ∈ ["region"] -> scorable region_frame predictions a.
Proof.
  intros Hlen H. apply list_elem_of_singleton in H. subst a.
  exists region_column. split; [reflexivity|]. split; [discriminate|].
  split; [|by rewrite Hlen].
  intros Hm. unfold region_column in Hm.
  repeat (apply elem_of_cons in Hm as [Hm|Hm]; [discriminate|]).
  by apply elem_of_nil in Hm.
Defined.

Lemma small_labels_moderate :
  Forall moderate [1; 1; 0; 0]%Q /\ Forall moderate [1; 0; 1]%Q.
Proof.
  split; repeat constructor; unfold moderate, Qle; vm_compute; discriminate.
Defined.

Lemma demographic_parity_is_one_minus_spread_witness :
  Forall moderate [1; 1; 0; 0]%Q /\
  (forall a, a ∈ ["region"] -> scorable region_frame [1; 1; 0; 0]%Q a) /\
  exists dp,
    outcome (_calculate_demographic_parity
               (fixed_model [1; 1; 0; 0]%Q) region_frame ["region"]) zero_state
    = Ok dp /\
    forall a, a ∈ ["region"] ->
      exists col g0 rest q,
        getitem region_frame a = Ok col /\ unique col = g0 :: rest /\
        dp !! a = Some (Fin q) /\
        let rate := group_rate_Q [1; 1; 0; 0]%Q col in
        (q == 1 - (Qmax_list (rate g0) (map rate rest)
                   - Qmin_list (rate g0) (map rate rest)))%Q /\
        (Forall in_unit [1; 1; 0; 0]%Q ->
         in_unit q /\ (q == spec_parity_score (rate g0) (map rate rest))%Q).
Proof.
  split; [exact (proj1 small_labels_moderate)|].
  split; [exact (fun a => region_scorable [1; 1; 0; 0]%Q a eq_refl)|].
  apply (proj1 demographic_parity_is_one_minus_spread
           (fixed_model [1; 1; 0; 0]%Q) region_frame ["region"] [1; 1; 0; 0]%Q
           zero_state).
  - reflexivity.
  - exact (proj1 small_labels_moderate).
  - exact (fun a => region_scorable [1; 1; 0; 0]%Q a eq_refl).
Defined.





(** C5 (as the code has it).  When a listed attribute is not a column of
    the frame, the call returns no score map: it raises.  The exception is
    pandas' [KeyError], raised when the loop reaches the attribute, that is
    after [model.predict] has run and after the attributes listed before it
    have been scored; an exception of [model.predict] comes first. *)
Theorem missing_attribute_raises_KeyError model data attrs a s :
  a ∈ attrs ->
  a ∉ column_names data ->
  (exists e, outcome (_calculate_demographic_parity model data attrs) s = Raise e) /\
  (forall e, predict model data = Raise e ->
     outcome (_calculate_demographic_parity model data attrs) s = Raise e) /\
  (forall predictions pre post,
     predict model data = Ok predictions ->
     attrs = pre ++ a :: post ->
     (forall b, b ∈ pre -> is_ok (attribute_parity predictions data b) = true) ->
     outcome (_calculate_demographic_parity model data attrs) s = Raise KeyError).
Proof.
  intros Ha Habs. unfold outcome. rewrite demographic_parity_run. simpl fst.
  assert (Hkey : forall predictions,
            attribute_parity predictions data a = Raise KeyError).
  { intros predictions. unfold attribute_parity.
    by rewrite (getitem_absent data a Habs). }
  split; [|split].
  - destruct (predict model data) as [predictions|e]; [|by exists e].
    apply (parity_loop_raise predictions data attrs ∅ a Ha).
    by rewrite Hkey.
  - by intros e ->.
  - intros predictions pre post -> -> Hpre.
    apply parity_loop_first_failure; [|apply Hkey].
    intros b Hb. specialize (Hpre b Hb).
    destruct (attribute_parity predictions data b) as [v|]; [by exists v | discriminate].
Qed.

Lemma missing_attribute_raises_KeyError_witness :
  "age" ∈ ["region"; "age"] /\
("age" ∉ column_names region_frame) /\
  outcome (_calculate_demographic_parity
             (fixed_model [1; 1; 0; 0]%Q) region_frame ["region"; "age"]) zero_state
  = Raise KeyError.
Proof.
  assert (Hin : "age" ∈ ["region"; "age"]) by (right; left).
  assert (Hout : "age" ∉ column_names region_frame).
  { intros H. apply list_elem_of_singleton in H. discriminate. }
  split; [exact Hin|]. split; [exact Hout|].
  apply (proj2 (proj2 (missing_attribute_raises_KeyError
                  (fixed_model [1; 1; 0; 0]%Q) region_frame ["region"; "age"] "age"
                  zero_state Hin Hout))
           [1; 1; 0; 0]%Q ["region"] []).
  - reflexivity.
  - reflexivity.
  - intros b Hb. apply list_elem_of_singleton in Hb. subst b. vm_compute. reflexivity.
Defined.

(** C5 as stated fails: the exception for an unknown attribute is
    [KeyError], not [SchemaError], and it is not raised at the start, since
    a failing [model.predict] is reported instead. *)
Lemma missing_attribute_not_SchemaError :
("age" ∉ column_names region_frame) /\
  outcome (_calculate_demographic_parity
             (fixed_model [1; 1; 0; 0]%Q) region_frame ["age"]) zero_state
  = Raise KeyError /\
  outcome (_calculate_demographic_parity
             (fixed_model [1; 1; 0; 0]%Q) region_frame ["age"]) zero_state
  <> Raise (OtherError "SchemaError") /\
  outcome (_calculate_demographic_parity
             (mkModel (fun _ => Raise ValueError)) region_frame ["age"]) zero_state
  = Raise ValueError.
Proof.
  split.
  { intros H. apply list_elem_of_singleton in H. discriminate. }
  split; [reflexivity|]. split; [discriminate | reflexivity].
Qed.


(** ** The perturbation *)

Lemma column_add_result col noise :
  length noise = length col ->
  column_add col noise
  = if forallb is_num col then Ok (zip_with shift_cell col noise) else Raise TypeError.
Proof.
  revert noise. induction col as [|c col IH]; intros [|e noise] Hlen;
    try discriminate; simpl; [reflexivity|].
  destruct c as [x|t|]; simpl; [|reflexivity|];
    rewrite ?result_bind_ok, IH by (simpl in Hlen; lia);
    by destruct (forallb is_num col).
Qed.

Lemma array_column_length j noise : length (array_column j noise) = length noise.
Proof. unfold array_column. by rewrite length_map. Qed.

Lemma frame_add_from_result j data noise :
  Forall (fun c => length (snd c) = length noise) data ->
  frame_add_from j data noise
  = if numeric_frame data then Ok (shifted_from j data noise) else Raise TypeError.
Proof.
  intros H. revert j. induction H as [|[name col] rest Hc Hrest IH]; intros j; simpl.
  - reflexivity.
  - simpl in Hc. rewrite column_add_result by (by rewrite array_column_length).
    destruct (forallb is_num col); simpl; [|reflexivity].
    rewrite ?result_bind_ok, IH. by destruct (numeric_frame rest).
Qed.

Lemma wf_frame_lengths data :
  wf_frame data = true -> Forall (fun c => length (snd c) = nrows data) data.
Proof.
  unfold wf_frame. intros H. apply Forall_forall. intros c Hc.
  rewrite forallb_forall in H. apply Nat.eqb_eq, H. by apply list_elem_of_In.
Qed.

Lemma noise_array_length loc scale data s :
  length (noise_array loc scale data s) = nrows data.
Proof. unfold noise_array. by rewrite length_map, length_seq. Qed.

Lemma perturb_run epsilon data s :
  perturb epsilon data s
  = (frame_add data (noise_array 0 epsilon data s),
     mkRandomState (gauss s) (position s + nrows data * ncols data)).
Proof. reflexivity. Qed.

Lemma perturb_result epsilon data s :
  wf_frame data = true ->
  outcome (perturb epsilon data) s
  = if numeric_frame data
    then Ok (shifted_from 0 data (noise_array 0 epsilon data s))
    else Raise TypeError.
Proof.
  intros Hwf. unfold outcome. rewrite perturb_run. simpl fst.
  unfold frame_add. apply frame_add_from_result.
  rewrite noise_array_length. by apply wf_frame_lengths.
Qed.

Lemma shifted_from_names j data noise :
  column_names (shifted_from j data noise) = column_names data.
Proof.
  revert j. induction data as [|[name col] rest IH]; intros j; simpl; [done|].
  f_equal. apply IH.
Qed.

Lemma shifted_from_lookup j data noise k name col :
  data !! k = Some (name, col) ->
  shifted_from j data noise !! k
  = Some (name, zip_with shift_cell col (array_column (j + k) noise)).
Proof.
  revert j k. induction data as [|[n c] rest IH]; intros j k; [done|].
  destruct k as [|k]; simpl.
  - intros [= -> ->]. by rewrite Nat.add_0_r.
  - intros H. change (shifted_from (S j) rest noise !! k
                      = Some (name, zip_with shift_cell col (array_column (j + S k) noise))).
    rewrite (IH (S j) k H). by replace (S j + k) with (j + S k) by lia.
Qed.

Lemma normal_row_nth loc scale g start cols j :
  j < cols ->
  nth j (normal_row loc scale g start cols) 0%Q = (loc + scale * g (start + j)%nat)%Q.
Proof.
  intros Hj. unfold normal_row.
  by rewrite nth_lookup, list_lookup_fmap, lookup_seq_lt.
Qed.

Lemma noise_array_column loc scale data s j i :
  j < ncols data -> i < nrows data ->
  array_column j (noise_array loc scale data s) !! i
  = Some (loc + scale * gauss s (position s + i * ncols data + j))%Q.
Proof.
  intros Hj Hi. unfold array_column, noise_array.
  rewrite !list_lookup_fmap, lookup_seq_lt by done. simpl.
  f_equal. by apply normal_row_nth.
Qed.

(** C6 (as the code has it).  The perturbation adds one noise draw to every
    field of every record, whatever the role of the field: on a well-formed
    frame whose cells are all numbers it returns a frame with the same
    column names in which the value [x] at record [i], column [j] has become
    [x + epsilon * z], [z] being the draw numbered [i * ncols + j] from the
    current position of the generator; on a well-formed frame holding a
    string cell it returns nothing and raises [TypeError]. *)
Theorem perturbation_shifts_every_field epsilon data s :
  wf_frame data = true ->
  (numeric_frame data = true ->
   exists d',
     outcome (perturb epsilon data) s = Ok d' /\
     column_names d' = column_names data /\
     forall j name col i x,
       data !! j = Some (name, col) -> col !! i = Some (Num x) ->
       exists col' y,
         d' !! j = Some (name, col') /\ col' !! i = Some (Num y) /\
         (y == x + epsilon * gauss s (position s + i * ncols data + j))%Q) /\
  (numeric_frame data = false ->
   outcome (perturb epsilon data) s = Raise TypeError).
Proof.
  intros Hwf. rewrite (perturb_result epsilon data s Hwf). split; intros Hnum;
    rewrite Hnum; [|reflexivity].
  eexists. split; [reflexivity|]. split; [apply shifted_from_names|].
  intros j name col i x Hj Hi.
  rewrite (shifted_from_lookup 0 data _ j name col Hj). simpl.
  assert (Hjlt : j < ncols data) by (by apply lookup_lt_Some in Hj).
  assert (Hilt : i < nrows data).
  { apply lookup_lt_Some in Hi. apply list_elem_of_lookup_2 in Hj.
    pose proof (wf_frame_lengths data Hwf) as Hall. rewrite Forall_forall in Hall.
    specialize (Hall _ Hj). simpl in Hall. lia. }
  eexists _, _. split; [reflexivity|]. split.
  - rewrite lookup_zip_with, Hi. simpl.
    rewrite (noise_array_column 0 epsilon data s j i Hjlt Hilt). reflexivity.
  - rewrite Qred_correct. ring.
Qed.

Lemma perturbation_shifts_every_field_witness :
  exists d',
    outcome (perturb (1 # 10) coded_frame) ramp_state = Ok d' /\
    column_names d' = column_names coded_frame /\
    forall j name col i x,
      coded_frame !! j = Some (name, col) -> col !! i = Some (Num x) ->
      exists col' y,
        d' !! j = Some (name, col') /\ col' !! i = Some (Num y) /\
        (y == x + (1 # 10) * gauss ramp_state
                               (position ramp_state + i * ncols coded_frame + j))%Q.
Proof.
  apply (proj1 (perturbation_shifts_every_field (1 # 10) coded_frame ramp_state
                  eq_refl)).
  reflexivity.
Defined.

(** C6 as stated fails: a sensitive attribute stored as a number is
    perturbed like any other field, and a frame with a categorical (string)
    field cannot be perturbed at all. *)
Lemma perturbation_changes_sensitive_field :
  (exists d',
     outcome (perturb (1 # 10) coded_frame) ramp_state = Ok d' /\
     getitem coded_frame "gender" = Ok [Num 0%Q; Num 1%Q] /\
     getitem d' "gender" = Ok [Num (1 # 5)%Q; Num (7 # 5)%Q]) /\
  outcome (perturb (1 # 10) region_frame) ramp_state = Raise TypeError.
Proof.
  split; [|reflexivity].
  eexists. split; [vm_compute; reflexivity|]. split; reflexivity.
Qed.

(** ** Adversarial robustness of a constant model *)

Lemma Qsum_ones n : (Qsum (replicate n 1%Q) == inject_Z (Z.of_nat n))%Q.
Proof.
  induction n as [|n IH]; [reflexivity|].
  change (1 + Qsum (replicate n 1%Q) == inject_Z (Z.of_nat (S n)))%Q.
  rewrite IH, Nat2Z.inj_succ. unfold Z.succ. rewrite inject_Z_plus. ring.
Qed.

Lemma np_mean_ones n : 0 < n -> np_mean (replicate n 1%Q) = Fin 1%Q.
Proof.
  intros Hn. destruct n as [|n]; [lia|].
  change (np_mean (replicate (S n) 1%Q)) with (fl (mean_Q (replicate (S n) 1%Q))).
  unfold fl. f_equal. change 1%Q with (Qred 1) at 2. apply Qred_complete.
  unfold mean_Q. rewrite Qsum_ones, length_replicate.
  apply Qmult_inv_r. change 0%Q with (inject_Z 0). rewrite inject_Z_injective. lia.
Qed.

Lemma np_eq_constant n c :
  np_eq (replicate n c) (replicate n c) = Ok (replicate n true).
Proof.
  unfold np_eq. rewrite Nat.eqb_refl. f_equal.
  induction n as [|n IH]; simpl; [reflexivity|]. f_equal; [|exact IH].
  apply Qeq_bool_iff. reflexivity.
Qed.

Lemma shifted_from_nrows data noise :
  Forall (fun c => length (snd c) = length noise) data ->
  nrows (shifted_from 0 data noise) = nrows data.
Proof.
  destruct 1 as [|[name col] rest Hc _]; simpl; [reflexivity|].
  simpl in Hc. rewrite length_zip_with, array_column_length. lia.
Qed.

Lemma adversarial_constant epsilon model c data s :
  constant_output model c ->
  wf_frame data = true -> numeric_frame data = true -> 0 < nrows data ->
  outcome (adversarial_robustness_at epsilon model data) s = Ok (Fin 1%Q).
Proof.
  intros Hc Hwf Hnum Hpos.
  pose proof (perturb_result epsilon data s Hwf) as Hp. rewrite Hnum in Hp.
  unfold outcome in *. unfold adversarial_robustness_at, mbind, M_bind.
  destruct (perturb epsilon data s) as [r s'] eqn:E. simpl in Hp. subst r.
  unfold lift. rewrite !Hc.
  rewrite shifted_from_nrows
    by (rewrite noise_array_length; by apply wf_frame_lengths).
  rewrite np_eq_constant. simpl. f_equal.
  rewrite <- (np_mean_ones (nrows data) Hpos). f_equal.
  clear. induction (nrows data); simpl; [reflexivity | by f_equal].
Qed.

(** C8 (as the code has it).  For a constant-output model, any noise scale
    and any state of the generator, the adversarial robustness score of a
    non-empty, well-formed frame whose cells are all numbers is exactly 1;
    this holds in particular for the scale 0.1 the method uses. *)
Theorem constant_model_adversarial_score_is_one epsilon model c data s :
  constant_output model c ->
  wf_frame data = true ->
  numeric_frame data = true ->
  0 < nrows data ->
  outcome (adversarial_robustness_at epsilon model data) s = Ok (Fin 1%Q) /\
  outcome (_check_adversarial_robustness model data) s = Ok (Fin 1%Q).
Proof.
  intros Hc Hwf Hnum Hpos. split.
  - by apply (adversarial_constant epsilon model c).
  - unfold _check_adversarial_robustness. by apply (adversarial_constant _ model c).
Qed.

Lemma constant_model_is_constant c : constant_output (constant_model c) c.
Proof. intros d. reflexivity. Defined.

Lemma constant_model_adversarial_score_is_one_witness :
  constant_output (constant_model 1) 1 /\
  0 < nrows coded_frame /\
  outcome (adversarial_robustness_at (1 # 2) (constant_model 1) coded_frame) ramp_state
  = Ok (Fin 1%Q) /\
  outcome (_check_adversarial_robustness (constant_model 1) coded_frame) ramp_state
  = Ok (Fin 1%Q).
Proof.
  split; [apply constant_model_is_constant|]. split; [simpl; lia|].
  apply (constant_model_adversarial_score_is_one (1 # 2) (constant_model 1) 1
           coded_frame ramp_state).
  - apply constant_model_is_constant.
  - reflexivity.
  - reflexivity.
  - simpl; lia.
Defined.

(** C8 as stated fails: on a frame without records the mean of the empty
    agreement vector is [NaN], and on a frame with a categorical field the
    perturbation raises [TypeError]. *)
Lemma constant_model_score_on_empty_frame_is_nan :
  constant_output (constant_model 1) 1 /\
  outcome (_check_adversarial_robustness (constant_model 1) empty_frame) zero_state
  = Ok NaN /\
  outcome (_check_adversarial_robustness (constant_model 1) empty_frame) zero_state
  <> Ok (Fin 1%Q) /\
  outcome (_check_adversarial_robustness (constant_model 1) region_frame) zero_state
  = Raise TypeError.
Proof.
  split; [apply constant_model_is_constant|].
  split; [reflexivity|]. split; [discriminate | reflexivity].
Qed.

(** ** The undefined helper methods *)

Lemma assess_fairness_run model data attrs s :
  outcome (assess_fairness AIEthicsFramework model data attrs) s
  = match outcome (_calculate_demographic_parity model data attrs) s with
    | Ok _ => Raise AttributeError
    | Raise e => Raise e
    end.
Proof.
  unfold outcome, assess_fairness, mbind, M_bind.
  destruct (_calculate_demographic_parity model data attrs s) as [[dp|e] s'];
    reflexivity.
Qed.

Lemma assess_robustness_run model test_data s :
  outcome (assess_robustness AIEthicsFramework model test_data) s
  = match outcome (_check_adversarial_robustness model test_data) s with
    | Ok _ => Raise AttributeError
    | Raise e => Raise e
    end.
Proof.
  unfold outcome, assess_robustness, mbind, M_bind.
  destruct (_check_adversarial_robustness model test_data s) as [[a|e] s'];
    reflexivity.
Qed.

(** C2 (as the code has it).  On the class as written neither
    [assess_fairness] nor [assess_robustness] ever returns a report.  Each
    raises [AttributeError] as soon as its first step has completed (the
    demographic-parity computation, respectively the adversarial check),
    because the next helper is not defined; when that first step raises,
    its exception is the one the caller sees. *)
Theorem assessments_never_return model data attrs test_data s :
  (outcome (assess_fairness AIEthicsFramework model data attrs) s
   = match outcome (_calculate_demographic_parity model data attrs) s with
     | Ok _ => Raise AttributeError
     | Raise e => Raise e
     end) /\
  (outcome (assess_robustness AIEthicsFramework model test_data) s
   = match outcome (_check_adversarial_robustness model test_data) s with
     | Ok _ => Raise AttributeError
     | Raise e => Raise e
     end) /\
  is_ok (outcome (assess_fairness AIEthicsFramework model data attrs) s) = false /\
  is_ok (outcome (assess_robustness AIEthicsFramework model test_data) s) = false.
Proof.
  rewrite assess_fairness_run, assess_robustness_run.
  split; [reflexivity|]. split; [reflexivity|].
  split; [destruct (outcome (_calculate_demographic_parity _ _ _) s)
         | destruct (outcome (_check_adversarial_robustness _ _) s)];
    reflexivity.
Qed.

(** C2 as stated fails: the exception is not always [AttributeError].  An
    unknown attribute makes [assess_fairness] raise [KeyError], and a frame
    with a string column makes [assess_robustness] raise [TypeError]. *)
Lemma assessments_raise_other_exceptions :
  outcome (assess_fairness AIEthicsFramework (fixed_model [1; 1; 0; 0]%Q)
             region_frame ["age"]) zero_state
  = Raise KeyError /\
  outcome (assess_robustness AIEthicsFramework (constant_model 1) region_frame)
          zero_state
  = Raise TypeError /\
  Raise KeyError <> @Raise (gmap string scores) AttributeError /\
  Raise TypeError <> @Raise npfloat AttributeError.
Proof.
  split; [reflexivity|]. split; [reflexivity|]. split; discriminate.
Qed.

(** C3.  With group acceptance rates 0.2 and 0.8 a report would hold the
    disparate impact 0.25, but [assess_fairness] raises [AttributeError]
    instead of returning a report: [_calculate_equal_opportunity] and
    [_calculate_disparate_impact] are not defined. *)
Theorem assess_fairness_gives_no_disparate_impact :
  getitem ten_region_frame "region" = Ok ten_region_column /\
  group_rate ten_predictions ten_region_column (Str "A") = Fin (1 # 5)%Q /\
  group_rate ten_predictions ten_region_column (Str "B") = Fin (4 # 5)%Q /\
  _calculate_disparate_impact AIEthicsFramework = None /\
  outcome (assess_fairness AIEthicsFramework (fixed_model ten_predictions)
             ten_region_frame ["region"]) zero_state
  = Raise AttributeError.
Proof.
  split; [reflexivity|].
  split; [vm_compute; reflexivity|]. split; [vm_compute; reflexivity|].
  split; [reflexivity|].
  rewrite assess_fairness_run. vm_compute. reflexivity.
Qed.

(** C9.  [assess_robustness] never reaches the mean of its three
    sub-scores: for a constant model on a numeric frame the adversarial
    sub-score is computed (it is 1), then the lookup of
    [_check_out_of_distribution_performance] raises [AttributeError]. *)
Theorem assess_robustness_gives_no_aggregate :
  outcome (_check_adversarial_robustness (constant_model 1) coded_frame) ramp_state
  = Ok (Fin 1%Q) /\
  _check_out_of_distribution_performance AIEthicsFramework = None /\
  _check_stability_under_data_perturbations AIEthicsFramework = None /\
  outcome (assess_robustness AIEthicsFramework (constant_model 1) coded_frame)
          ramp_state
  = Raise AttributeError.
Proof.
  split; [vm_compute; reflexivity|]. split; [reflexivity|]. split; [reflexivity|].
  rewrite assess_robustness_run. vm_compute. reflexivity.
Qed.

(** What lines 161-167 compute once the two helpers exist (say in a
    subclass): the mean of the three sub-scores, which lies in the unit
    interval when they do. *)
Lemma assess_robustness_with_helpers self model test_data ood stab s a b c s1 s2 s3 :
  _check_out_of_distribution_performance self = Some ood ->
  _check_stability_under_data_perturbations self = Some stab ->
  _check_adversarial_robustness model test_data s = (Ok (Fin a), s1) ->
  ood model test_data s1 = (Ok (Fin b), s2) ->
  stab model test_data s2 = (Ok (Fin c), s3) ->
  exists q,
    outcome (assess_robustness self model test_data) s = Ok (Fin q) /\
    (q == (a + b + c) / 3)%Q /\
    (in_unit a -> in_unit b -> in_unit c -> in_unit q).
Proof.
  intros Hood Hstab Ha Hb Hc.
  unfold outcome, assess_robustness, mbind, M_bind.
  rewrite Ha, Hood. simpl. rewrite Hb, Hstab. simpl. rewrite Hc. simpl.
  eexists. split; [reflexivity|].
  assert (E : (Qred ((Qred (Qred (Qred (0 + a) + b) + c)) / inject_Z 3)
               == (a + b + c) / 3)%Q).
  { rewrite !Qred_correct. change (inject_Z 3) with 3%Q. field. }
  split; [exact E|].
  intros [Ha0 Ha1] [Hb0 Hb1] [Hc0 Hc1]. unfold in_unit. rewrite E.
  split.
  - apply Qle_shift_div_l; [reflexivity | lra].
  - apply Qle_shift_div_r; [reflexivity | lra].
Qed.

(** The adversarial check, unlike the parity computation, depends on the
    state of the random generator. *)
Lemma adversarial_score_depends_on_random_state :
  outcome (_check_adversarial_robustness threshold_model [("x", [Num 1%Q])])
          zero_state = Ok (Fin 1%Q) /\
  outcome (_check_adversarial_robustness threshold_model [("x", [Num 1%Q])])
          ramp_state = Ok (Fin 0%Q).
Proof. split; vm_compute; reflexivity. Qed.

(** ** Substrings and lower case *)

Lemma append_cons x (a b : string) : String x a +:+ b = String x (a +:+ b).
Proof. reflexivity. Qed.

Lemma append_nil_l (a : string) : "" +:+ a = a.
Proof. reflexivity. Qed.

Lemma append_assoc (a b c : string) : (a +:+ b) +:+ c = a +:+ (b +:+ c).
Proof.
  induction a as [|x a IH]; [reflexivity|]. by rewrite !append_cons, IH.
Qed.

Lemma starts_with_spec s p :
  starts_with s p = true <-> exists post, s = p +:+ post.
Proof.
  revert s. induction p as [|a p IH]; intros s; simpl.
  - split; [intros _; exists s; reflexivity | intros _; by destruct s].
  - destruct s as [|b r]; simpl.
    + split; [discriminate | intros [post H]; discriminate].
    + rewrite andb_true_iff, Ascii.eqb_eq, IH. split.
      * intros [-> [post ->]]. exists post. reflexivity.
      * intros [post H]. rewrite append_cons in H. injection H as -> ->.
        split; [reflexivity | exists post; reflexivity].
Qed.

Lemma contains_nil needle : contains "" needle = starts_with "" needle || false.
Proof. reflexivity. Qed.

Lemma contains_cons c r needle :
  contains (String c r) needle = starts_with (String c r) needle || contains r needle.
Proof. reflexivity. Qed.

Lemma contains_spec haystack needle :
  contains haystack needle = true
  <-> exists pre post, haystack = pre +:+ needle +:+ post.
Proof.
  induction haystack as [|c r IH];
    [rewrite contains_nil | rewrite contains_cons];
    rewrite orb_true_iff, starts_with_spec.
  - split.
    + intros [[post H]|H]; [exists "", post; exact H | discriminate].
    + intros [pre [post H]]. left.
      destruct pre; [exists post; exact H | discriminate].
  - rewrite IH. split.
    + intros [[post H]|[pre [post H]]]; [exists "", post; exact H|].
      exists (String c pre), post. rewrite append_cons, H. reflexivity.
    + intros [pre [post H]]. destruct pre as [|x pre].
      * left. exists post. exact H.
      * right. rewrite append_cons in H. injection H as -> ->.
        exists pre, post. reflexivity.
Qed.

Lemma contains_extend pre text post needle :
  contains text needle = true ->
  contains (pre +:+ text +:+ post) needle = true.
Proof.
  rewrite !contains_spec. intros [a [b ->]].
  exists (pre +:+ a), (b +:+ post). by rewrite !append_assoc.
Qed.

Lemma lower_app a b : lower (a +:+ b) = lower a +:+ lower b.
Proof.
  induction a as [|x a IH]; [reflexivity|].
  rewrite append_cons. simpl. by rewrite append_cons, IH.
Qed.

Lemma lower_char_idem c : lower_char (lower_char c) = lower_char c.
Proof. destruct c as [[] [] [] [] [] [] [] []]; reflexivity. Qed.

Lemma lower_idem s : lower (lower s) = lower s.
Proof.
  induction s as [|c r IH]; simpl; [reflexivity|].
  by rewrite lower_char_idem, IH.
Qed.

(** ** Counting keywords *)

Lemma filter_length_mono {A} (P Q : A -> bool) (l : list A) :
  (forall x, x ∈ l -> P x = true -> Q x = true) ->
  length (filter P l) <= length (filter Q l).
Proof.
  induction l as [|x l IH]; intros H; [done|].
  rewrite !filter_cons.
  assert (IH' : length (filter P l) <= length (filter Q l)).
  { apply IH. intros y Hy. apply H. by right. }
  destruct (decide (P x)) as [Hp|Hp], (decide (Q x)) as [Hq|Hq]; simpl; try lia.
  exfalso. apply Hq. apply Is_true_true. apply H; [left|]. by apply Is_true_true.
Qed.

Lemma filter_length_all {A} (P : A -> bool) (l : list A) :
  length (filter P l) = length l <-> (forall x, x ∈ l -> P x = true).
Proof.
  induction l as [|x l IH].
  - split; [|done]. intros _ y Hy. by apply elem_of_nil in Hy.
  - rewrite filter_cons. pose proof (length_filter P l) as Hle.
    destruct (decide (P x)) as [Hp|Hp]; simpl.
    + split.
      * intros H y Hy. apply elem_of_cons in Hy as [->|Hy].
        -- by apply Is_true_true.
        -- apply IH; [lia | done].
      * intros H. f_equal. apply IH. intros y Hy. apply H. by right.
    + split; [intros H; lia|]. intros H. exfalso. apply Hp.
      apply Is_true_true. apply H. left.
Qed.

Lemma filter_length_none {A} (P : A -> bool) (l : list A) :
  length (filter P l) = 0 <-> (forall x, x ∈ l -> P x = false).
Proof.
  induction l as [|x l IH].
  - split; [|done]. intros _ y Hy. by apply elem_of_nil in Hy.
  - rewrite filter_cons. destruct (decide (P x)) as [Hp|Hp]; simpl.
    + split; [discriminate|]. intros H. apply Is_true_true in Hp.
      rewrite (H x) in Hp; [discriminate | left].
    + rewrite IH. split.
      * intros H y Hy. apply elem_of_cons in Hy as [->|Hy]; [|auto].
        destruct (P x); [|done]. exfalso. by apply Hp.
      * intros H y Hy. apply H. by right.
Qed.

Lemma keyword_hits_le keywords text : keyword_hits keywords text <= length keywords.
Proof. apply length_filter. Qed.

Lemma py_truediv_value a b :
  0 < b ->
  exists q, py_truediv a b = Ok (Fin q) /\ Qred q = q /\
            (q == inject_Z (Z.of_nat a) / inject_Z (Z.of_nat b))%Q.
Proof.
  intros Hb. destruct b as [|b]; [lia|]. simpl. eexists. split; [reflexivity|].
  split; [apply Qred_complete, Qred_correct | apply Qred_correct].
Qed.

Lemma nat_ratio_unit a b :
  0 < b -> a <= b -> in_unit (inject_Z (Z.of_nat a) / inject_Z (Z.of_nat b)).
Proof.
  intros Hb Hab.
  assert (Hpos : (0 < inject_Z (Z.of_nat b))%Q).
  { change 0%Q with (inject_Z 0). rewrite <- Zlt_Qlt. lia. }
  split.
  - apply Qle_shift_div_l; [done|]. rewrite Qmult_0_l.
    change 0%Q with (inject_Z 0). rewrite <- Zle_Qle. lia.
  - apply Qle_shift_div_r; [done|]. rewrite Qmult_1_l. rewrite <- Zle_Qle. lia.
Qed.

Lemma nat_ratio_le a a' b :
  0 < b -> a <= a' ->
  (inject_Z (Z.of_nat a) / inject_Z (Z.of_nat b)
   <= inject_Z (Z.of_nat a') / inject_Z (Z.of_nat b))%Q.
Proof.
  intros Hb Ha.
  assert (Hpos : (0 < inject_Z (Z.of_nat b))%Q).
  { change 0%Q with (inject_Z 0). rewrite <- Zlt_Qlt. lia. }
  unfold Qdiv. apply Qmult_le_compat_r.
  - rewrite <- Zle_Qle. lia.
  - apply Qlt_le_weak. by apply Qinv_lt_0_compat.
Qed.

Lemma nat_ratio_one a b :
  0 < b -> (inject_Z (Z.of_nat a) / inject_Z (Z.of_nat b) == 1)%Q <-> a = b.
Proof.
  intros Hb.
  assert (Hne : ~ (inject_Z (Z.of_nat b) == 0)%Q).
  { change 0%Q with (inject_Z 0). rewrite inject_Z_injective. lia. }
  split.
  - intros H.
    assert (E : (inject_Z (Z.of_nat a) == inject_Z (Z.of_nat b))%Q).
    { transitivity (inject_Z (Z.of_nat b)
                    * (inject_Z (Z.of_nat a) / inject_Z (Z.of_nat b)))%Q;
        [symmetry; by apply Qmult_div_r | rewrite H; ring]. }
    rewrite inject_Z_injective in E. lia.
  - intros ->. by apply Qmult_inv_r.
Qed.

Lemma nat_ratio_zero a b :
  0 < b -> (inject_Z (Z.of_nat a) / inject_Z (Z.of_nat b) == 0)%Q <-> a = 0.
Proof.
  intros Hb.
  assert (Hne : ~ (inject_Z (Z.of_nat b) == 0)%Q).
  { change 0%Q with (inject_Z 0). rewrite inject_Z_injective. lia. }
  split.
  - intros H.
    assert (E : (inject_Z (Z.of_nat a) == inject_Z 0)%Q).
    { transitivity (inject_Z (Z.of_nat b)
                    * (inject_Z (Z.of_nat a) / inject_Z (Z.of_nat b)))%Q;
        [symmetry; by apply Qmult_div_r | rewrite H; ring]. }
    rewrite inject_Z_injective in E. lia.
  - intros ->. simpl. unfold Qdiv. by rewrite Qmult_0_l.
Qed.

(** ** The keyword checks *)

Lemma keyword_check_value keywords text :
  keywords <> [] ->
  exists q,
    py_truediv (keyword_hits keywords text) (length keywords) = Ok (Fin q) /\
    Qred q = q /\
    (q == inject_Z (Z.of_nat (keyword_hits keywords text))
          / inject_Z (Z.of_nat (length keywords)))%Q /\
    in_unit q.
Proof.
  intros Hne.
  assert (Hlen : 0 < length keywords) by (destruct keywords; [done | simpl; lia]).
  destruct (py_truediv_value (keyword_hits keywords text) (length keywords) Hlen)
    as (q & Hq & Hred & Heq).
  exists q. split; [done|]. split; [done|]. split; [done|].
  unfold in_unit. rewrite Heq.
  apply nat_ratio_unit; [done | apply keyword_hits_le].
Qed.

Lemma keyword_hits_extend keywords pre text post :
  keyword_hits keywords text <= keyword_hits keywords (pre +:+ text +:+ post).
Proof.
  unfold keyword_hits. apply filter_length_mono. intros k _ Hk.
  rewrite !lower_app. by apply contains_extend.
Qed.

Lemma keyword_check_extend keywords pre text post :
  keywords <> [] ->
  exists q q',
    py_truediv (keyword_hits keywords text) (length keywords) = Ok (Fin q) /\
    py_truediv (keyword_hits keywords (pre +:+ text +:+ post)) (length keywords)
    = Ok (Fin q') /\
    (q <= q')%Q.
Proof.
  intros Hne.
  assert (Hlen : 0 < length keywords) by (destruct keywords; [done | simpl; lia]).
  destruct (keyword_check_value keywords text Hne) as (q & Hq & _ & Heq & _).
  destruct (keyword_check_value keywords (pre +:+ text +:+ post) Hne)
    as (q' & Hq' & _ & Heq' & _).
  exists q, q'. split; [done|]. split; [done|]. rewrite Heq, Heq'.
  apply nat_ratio_le; [done | apply keyword_hits_extend].
Qed.

Lemma keyword_check_full keywords text :
  keywords <> [] ->
  Forall (fun k => lower k = k) keywords ->
  (py_truediv (keyword_hits keywords text) (length keywords) = Ok (Fin 1%Q)
   <-> forall k, k ∈ keywords -> exists pre post, lower text = pre +:+ k +:+ post) /\
  (py_truediv (keyword_hits keywords text) (length keywords) = Ok (Fin 0%Q)
   <-> forall k, k ∈ keywords -> ~ exists pre post, lower text = pre +:+ k +:+ post).
Proof.
  intros Hne Hlow. rewrite Forall_forall in Hlow.
  assert (Hlen : 0 < length keywords) by (destruct keywords; [done | simpl; lia]).
  destruct (keyword_check_value keywords text Hne) as (q & Hq & Hred & Heq & _).
  rewrite Hq. split.
  - transitivity (keyword_hits keywords text = length keywords).
    + rewrite <- (nat_ratio_one _ _ Hlen), <- Heq. split.
      * intros [= ->]. reflexivity.
      * intros H. do 2 f_equal. rewrite <- Hred. change 1%Q with (Qred 1).
        by apply Qred_complete.
    + unfold keyword_hits. rewrite filter_length_all. split; intros H k Hk.
      * apply contains_spec. rewrite <- (Hlow k Hk) at 1. by apply H.
      * rewrite (Hlow k Hk). apply contains_spec. by apply H.
  - transitivity (keyword_hits keywords text = 0).
    + rewrite <- (nat_ratio_zero _ _ Hlen), <- Heq. split.
      * intros [= ->]. reflexivity.
      * intros H. do 2 f_equal. rewrite <- Hred. change 0%Q with (Qred 0).
        by apply Qred_complete.
    + unfold keyword_hits. rewrite filter_length_none. split; intros H k Hk.
      * rewrite <- contains_spec. rewrite <- (Hlow k Hk) at 1.
        rewrite (H k Hk). discriminate.
      * rewrite (Hlow k Hk). apply not_true_is_false. rewrite contains_spec.
        by apply H.
Qed.


(** X2.  Adding text before or after a document never lowers a keyword
    score: a keyword found in the document is still found in the longer
    text. *)
Theorem keyword_checks_monotone pre text post :
  (exists q q',
     _check_model_architecture_disclosure text = Ok (Fin q) /\
     _check_model_architecture_disclosure (pre +:+ text +:+ post) = Ok (Fin q') /\
     (q <= q')%Q) /\
  (exists q q',
     _check_data_minimization text = Ok (Fin q) /\
     _check_data_minimization (pre +:+ text +:+ post) = Ok (Fin q') /\
     (q <= q')%Q).
Proof.
  split.
  - by apply (keyword_check_extend architecture_keywords).
  - by apply (keyword_check_extend minimization_keywords).
Qed.

(** X3.  A keyword check returns exactly 1 when every keyword of its list
    occurs in the lower-cased text, and exactly 0 when none does. *)
Theorem keyword_checks_full_and_empty text :
  (_check_model_architecture_disclosure text = Ok (Fin 1%Q)
   <-> forall k, k ∈ architecture_keywords ->
         exists pre post, lower text = pre +:+ k +:+ post) /\
  (_check_model_architecture_disclosure text = Ok (Fin 0%Q)
   <-> forall k, k ∈ architecture_keywords ->
         ~ exists pre post, lower text = pre +:+ k +:+ post) /\
  (_check_data_minimization text = Ok (Fin 1%Q)
   <-> forall k, k ∈ minimization_keywords ->
         exists pre post, lower text = pre +:+ k +:+ post) /\
  (_check_data_minimization text = Ok (Fin 0%Q)
   <-> forall k, k ∈ minimization_keywords ->
         ~ exists pre post, lower text = pre +:+ k +:+ post).
Proof.
  destruct (keyword_check_full architecture_keywords text) as [H1 H0];
    [discriminate | repeat constructor |].
  destruct (keyword_check_full minimization_keywords text) as [H1' H0'];
    [discriminate | repeat constructor |].
  split; [exact H1|]. split; [exact H0|]. split; [exact H1' | exact H0'].
Qed.

(** X4.  The keyword checks ignore letter case: a text and its lower-cased
    form score the same, and so do two texts with the same lower-cased
    form. *)
Theorem keyword_checks_ignore_case :
  (forall text,
     _check_model_architecture_disclosure (lower text)
     = _check_model_architecture_disclosure text /\
     _check_data_minimization (lower text) = _check_data_minimization text) /\
  (forall text text',
     lower text = lower text' ->
     _check_model_architecture_disclosure text
     = _check_model_architecture_disclosure text' /\
     _check_data_minimization text = _check_data_minimization text').
Proof.
  assert (H : forall keywords text text',
            lower text = lower text' ->
            keyword_hits keywords text = keyword_hits keywords text').
  { intros keywords text text' E. unfold keyword_hits. by rewrite E. }
  split.
  - intros text.
    unfold _check_model_architecture_disclosure, _check_data_minimization.
    cbv zeta. by rewrite !(H _ (lower text) text) by apply lower_idem.
  - intros text text' E.
    unfold _check_model_architecture_disclosure, _check_data_minimization.
    cbv zeta. by rewrite !(H _ text text' E).
Qed.

Lemma keyword_checks_ignore_case_witness :
  lower "Layers and NEURONS" = lower "LAYERS and neurons" /\
  _check_model_architecture_disclosure "Layers and NEURONS"
  = _check_model_architecture_disclosure "LAYERS and neurons" /\
  _check_data_minimization "Layers and NEURONS"
  = _check_data_minimization "LAYERS and neurons".
Proof.
  split; [reflexivity|].
  apply (proj2 keyword_checks_ignore_case "Layers and NEURONS" "LAYERS and neurons").
  reflexivity.
Defined.

(** ** Transparency and privacy *)

Lemma architecture_check_ok documentation :
  exists a, _check_model_architecture_disclosure documentation = Ok (Fin a) /\ in_unit a.
Proof.
  destruct (keyword_check_value architecture_keywords documentation)
    as (q & Hq & _ & _ & Hu); [discriminate|]. by exists q.
Qed.

Lemma minimization_check_ok procedures :
  exists a, _check_data_minimization procedures = Ok (Fin a) /\ in_unit a.
Proof.
  destruct (keyword_check_value minimization_keywords procedures)
    as (q & Hq & _ & _ & Hu); [discriminate|]. by exists q.
Qed.

(** X5.  On the class as written [assess_transparency] and
    [assess_privacy] return no score for any text: the first check is
    computed, then the lookup of the next, undefined check raises
    [AttributeError]; the random generator is left untouched. *)
Theorem text_assessments_never_return model documentation procedures s :
  assess_transparency AIEthicsFramework_text model documentation s
  = (Raise AttributeError, s) /\
  assess_privacy AIEthicsFramework_text procedures s = (Raise AttributeError, s).
Proof.
  destruct (architecture_check_ok documentation) as (a & Ha & _).
  destruct (minimization_check_ok procedures) as (b & Hb & _).
  unfold assess_transparency, assess_privacy, mbind, M_bind, lift.
  rewrite Ha, Hb. split; reflexivity.
Qed.

Lemma M_bind_ok {A B} (m : M A) (f : A -> M B) s a s' :
  m s = (Ok a, s') -> (m ≫= f) s = f a s'.
Proof. intros H. unfold mbind, M_bind. by rewrite H. Qed.

Lemma mean_of_four a b c d :
  exists q,
    np_div_pos (py_sum [Fin a; Fin b; Fin c; Fin d]) 4 = Fin q /\
    (q == (a + b + c + d) / 4)%Q /\
    (in_unit a -> in_unit b -> in_unit c -> in_unit d -> in_unit q).
Proof.
  eexists. split; [reflexivity|].
  assert (E : (Qred (Qred (Qred (Qred (Qred (0 + a) + b) + c) + d) / inject_Z 4)
               == (a + b + c + d) / 4)%Q).
  { rewrite !Qred_correct. change (inject_Z 4) with 4%Q. field. }
  split; [exact E|].
  intros [Ha0 Ha1] [Hb0 Hb1] [Hc0 Hc1] [Hd0 Hd1]. unfold in_unit. rewrite E.
  split.
  - apply Qle_shift_div_l; [reflexivity | lra].
  - apply Qle_shift_div_r; [reflexivity | lra].
Qed.

(** X6.  Once the three missing checks exist (say in a subclass) and
    return finite scores, [assess_transparency] returns the mean of the
    architecture score and the three other scores; the result lies between
    0 and 1 when the three supplied scores do. *)
Theorem assess_transparency_with_helpers
    self model documentation f1 f2 f3 s b c d s1 s2 s3 :
  _check_training_data_description self = Some f1 ->
  _check_performance_metrics_disclosure self = Some f2 ->
  _check_limitations_disclosure self = Some f3 ->
  f1 documentation s = (Ok (Fin b), s1) ->
  f2 documentation s1 = (Ok (Fin c), s2) ->
  f3 documentation s2 = (Ok (Fin d), s3) ->
  exists a q,
    _check_model_architecture_disclosure documentation = Ok (Fin a) /\
    assess_transparency self model documentation s = (Ok (Fin q), s3) /\
    (q == (a + b + c + d) / 4)%Q /\
    (in_unit b -> in_unit c -> in_unit d -> in_unit q).
Proof.
  intros H1 H2 H3 Hb Hc Hd.
  destruct (architecture_check_ok documentation) as (a & Ha & Hu).
  destruct (mean_of_four a b c d) as (q & Hq & Heq & Hunit).
  exists a, q. split; [exact Ha|].
  unfold assess_transparency.
  rewrite (M_bind_ok _ _ s (Fin a) s) by (unfold lift; by rewrite Ha).
  rewrite H1. rewrite (M_bind_ok _ _ s f1 s) by reflexivity.
  rewrite (M_bind_ok _ _ s _ s1 Hb), H2.
  rewrite (M_bind_ok _ _ s1 f2 s1) by reflexivity.
  rewrite (M_bind_ok _ _ s1 _ s2 Hc), H3.
  rewrite (M_bind_ok _ _ s2 f3 s2) by reflexivity.
  rewrite (M_bind_ok _ _ s2 _ s3 Hd). cbv zeta.
  change (Pos.of_nat (length [Fin a; Fin b; Fin c; Fin d])) with 4%positive.
  rewrite Hq. auto.
Qed.

Lemma assess_transparency_with_helpers_witness :
  exists a q,
    _check_model_architecture_disclosure "three layers of neurons" = Ok (Fin a) /\
    assess_transparency stub_text_checks (constant_model 1)
      "three layers of neurons" zero_state = (Ok (Fin q), zero_state) /\
    (q == (a + (1 # 2) + 1 + 0) / 4)%Q /\
    (in_unit (1 # 2) -> in_unit 1 -> in_unit 0 -> in_unit q).
Proof.
  apply (assess_transparency_with_helpers stub_text_checks (constant_model 1)
           "three layers of neurons" (stub_check (1 # 2)) (stub_check 1) (stub_check 0)
           zero_state (1 # 2) 1 0 zero_state zero_state zero_state);
    reflexivity.
Defined.

(** X7.  Once the three missing checks exist and return finite scores,
    [assess_privacy] returns the mean of the data-minimization score and
    the three other scores; the result lies between 0 and 1 when the three
    supplied scores do. *)
Theorem assess_privacy_with_helpers
    self procedures f1 f2 f3 s b c d s1 s2 s3 :
  _check_anonymization_techniques self = Some f1 ->
  _check_consent_mechanisms self = Some f2 ->
  _check_data_retention_policies self = Some f3 ->
  f1 procedures s = (Ok (Fin b), s1) ->
  f2 procedures s1 = (Ok (Fin c), s2) ->
  f3 procedures s2 = (Ok (Fin d), s3) ->
  exists a q,
    _check_data_minimization procedures = Ok (Fin a) /\
    assess_privacy self procedures s = (Ok (Fin q), s3) /\
    (q == (a + b + c + d) / 4)%Q /\
    (in_unit b -> in_unit c -> in_unit d -> in_unit q).
Proof.
  intros H1 H2 H3 Hb Hc Hd.
  destruct (minimization_check_ok procedures) as (a & Ha & Hu).
  destruct (mean_of_four a b c d) as (q & Hq & Heq & Hunit).
  exists a, q. split; [exact Ha|].
  unfold assess_privacy.
  rewrite (M_bind_ok _ _ s (Fin a) s) by (unfold lift; by rewrite Ha).
  rewrite H1. rewrite (M_bind_ok _ _ s f1 s) by reflexivity.
  rewrite (M_bind_ok _ _ s _ s1 Hb), H2.
  rewrite (M_bind_ok _ _ s1 f2 s1) by reflexivity.
  rewrite (M_bind_ok _ _ s1 _ s2 Hc), H3.
  rewrite (M_bind_ok _ _ s2 f3 s2) by reflexivity.
  rewrite (M_bind_ok _ _ s2 _ s3 Hd). cbv zeta.
  change (Pos.of_nat (length [Fin a; Fin b; Fin c; Fin d])) with 4%positive.
  rewrite Hq. auto.
Qed.

Lemma assess_privacy_with_helpers_witness :
  exists a q,
    _check_data_minimization "we limit data collection" = Ok (Fin a) /\
    assess_privacy stub_text_checks "we limit data collection" zero_state
    = (Ok (Fin q), zero_state) /\
    (q == (a + (1 # 2) + 1 + 0) / 4)%Q /\
    (in_unit (1 # 2) -> in_unit 1 -> in_unit 0 -> in_unit q).
Proof.
  apply (assess_privacy_with_helpers stub_text_checks
           "we limit data collection" (stub_check (1 # 2)) (stub_check 1) (stub_check 0)
           zero_state (1 # 2) 1 0 zero_state zero_state zero_state);
    reflexivity.
Defined.

(** X8.  Once the two missing probes exist and return finite scores,
    [assess_robustness] returns the mean of the adversarial score and the
    two other scores; the result lies between 0 and 1 when the three
    sub-scores do. *)
Theorem assess_robustness_mean_of_three
    self model test_data ood stab s a b c s1 s2 s3 :
  _check_out_of_distribution_performance self = Some ood ->
  _check_stability_under_data_perturbations self = Some stab ->
  _check_adversarial_robustness model test_data s = (Ok (Fin a), s1) ->
  ood model test_data s1 = (Ok (Fin b), s2) ->
  stab model test_data s2 = (Ok (Fin c), s3) ->
  exists q,
    assess_robustness self model test_data s = (Ok (Fin q), s3) /\
    (q == (a + b + c) / 3)%Q /\
    (in_unit a -> in_unit b -> in_unit c -> in_unit q).
Proof.
  intros Hood Hstab Ha Hb Hc.
  unfold assess_robustness, mbind, M_bind.
  rewrite Ha, Hood. simpl. rewrite Hb, Hstab. simpl. rewrite Hc. simpl.
  eexists. split; [reflexivity|].
  assert (E : (Qred ((Qred (Qred (Qred (0 + a) + b) + c)) / inject_Z 3)
               == (a + b + c) / 3)%Q).
  { rewrite !Qred_correct. change (inject_Z 3) with 3%Q. field. }
  split; [exact E|].
  intros [Ha0 Ha1] [Hb0 Hb1] [Hc0 Hc1]. unfold in_unit. rewrite E.
  split.
  - apply Qle_shift_div_l; [reflexivity | lra].
  - apply Qle_shift_div_r; [reflexivity | lra].
Qed.

Lemma assess_robustness_mean_of_three_witness :
  exists q,
    assess_robustness stub_instance (constant_model 1) coded_frame zero_state
    = (Ok (Fin q), mkRandomState (fun _ => 0%Q) 4) /\
    (q == (1 + (1 # 2) + 0) / 3)%Q /\
    (in_unit 1 -> in_unit (1 # 2) -> in_unit 0 -> in_unit q).
Proof.
  apply (assess_robustness_mean_of_three stub_instance (constant_model 1) coded_frame
           (stub_probe (1 # 2)) (stub_probe 0) zero_state 1 (1 # 2) 0
           (mkRandomState (fun _ => 0%Q) 4) (mkRandomState (fun _ => 0%Q) 4)
           (mkRandomState (fun _ => 0%Q) 4));
    reflexivity.
Defined.

(** ** The constructor and [evaluate] *)

Lemma lookup_method_raises {PyObject} (ns : list (string * Method PyObject)) name e :
  lookup_method ns name = Raise e -> e = AttributeError.
Proof.
  induction ns as [|[n f] rest IH]; simpl; [by intros [= <-]|].
  destruct (String.eqb n name); [discriminate | exact IH].
Qed.

Lemma build_principles_spec {PyObject} (ns : list (string * Method PyObject)) entries :
  (is_ok (build_principles ns entries) = true
   <-> forall entry, entry ∈ entries -> is_ok (lookup_method ns (snd entry)) = true) /\
  (forall e, build_principles ns entries = Raise e -> e = AttributeError) /\
  (forall principles, build_principles ns entries = Ok principles ->
     map fst principles = map fst entries).
Proof.
  induction entries as [|[principle name] rest (IHok & IHe & IHk)]; simpl.
  - split; [|split].
    + split; [|done]. intros _ entry H. by apply elem_of_nil in H.
    + discriminate.
    + by intros principles [= <-].
  - destruct (lookup_method ns name) as [f|e0] eqn:El.
    + rewrite result_bind_ok.
      destruct (build_principles ns rest) as [tail|e1] eqn:Eb.
      * rewrite result_bind_ok. split; [|split].
        -- split; [|done]. intros _ entry H.
           apply elem_of_cons in H as [->|H]; [simpl; by rewrite El|].
           by apply IHok.
        -- discriminate.
        -- intros principles [= <-]. simpl. f_equal. by apply IHk.
      * rewrite result_bind_raise. split; [|split].
        -- split; [discriminate|]. intros H. apply IHok. intros entry He.
           apply H. by right.
        -- intros e [= <-]. by apply IHe.
        -- discriminate.
    + rewrite result_bind_raise. split; [|split].
      * split; [discriminate|]. intros H.
        specialize (H (principle, name)). simpl in H. rewrite El in H.
        apply H. left.
      * intros e [= <-]. by apply (lookup_method_raises ns name).
      * discriminate.
Qed.

(** X9.  The constructor succeeds exactly when each of the seven
    assessment methods named in its registry is defined; otherwise it
    raises [AttributeError].  When it succeeds the registry lists the seven
    principles in the order of the source.  The class as written defines
    four of the seven, so constructing it raises [AttributeError]. *)
Theorem constructor_needs_all_assessments :
  (forall PyObject (namespace : list (string * Method PyObject)),
     (is_ok (__init__ namespace) = true
      <-> forall entry, entry ∈ principle_methods ->
            is_ok (lookup_method namespace (snd entry)) = true) /\
     (forall e, __init__ namespace = Raise e -> e = AttributeError) /\
     (forall principles, __init__ namespace = Ok principles ->
        map fst principles
        = ["fairness"; "transparency"; "accountability"; "privacy"; "safety";
           "robustness"; "explainability"])) /\
  (forall PyObject, @__init__ PyObject class_namespace = Raise AttributeError).
Proof.
  split; [|reflexivity]. intros PyObject namespace.
  apply (build_principles_spec namespace principle_methods).
Qed.

Lemma build_principles_head {PyObject} (ns : list (string * Method PyObject))
    principle name rest principles :
  build_principles ns ((principle, name) :: rest) = Ok principles ->
  exists f tail, lookup_method ns name = Ok f /\ principles = (principle, f) :: tail.
Proof.
  simpl. destruct (lookup_method ns name) as [f|e]; [|discriminate].
  rewrite result_bind_ok.
  destruct (build_principles ns rest) as [tail|e]; [|discriminate].
  rewrite result_bind_ok. intros [= <-]. by exists f, tail.
Qed.

Lemma evaluate_loop_rejects {PyObject} principle (f : Method PyObject) rest kw results s :
  var_keyword f = false ->
  forallb (fun k => name_in k (params f)) evaluate_keywords = false ->
  evaluate_loop ((principle, f) :: rest) kw results s = (Raise TypeError, s).
Proof.
  intros Hv Hk. simpl. unfold mbind, M_bind, call_kw. by rewrite Hv, Hk.
Qed.

(** X10.  [evaluate] never returns results for a registry built by the
    constructor in which "fairness" is the class's own [assess_fairness]:
    the first dispatched call passes eleven keyword arguments to a method
    that takes three, so it raises [TypeError] before the model is queried
    and without consuming randomness.  The same rejection meets each of the
    four assessments the class defines. *)
Theorem evaluate_rejects_keyword_bundle
    PyObject (namespace : list (string * Method PyObject)) principles self kw s :
  __init__ namespace = Ok principles ->
  lookup_method namespace "assess_fairness" = Ok (assess_fairness_method self) ->
  evaluate principles kw s = (Raise TypeError, s) /\
  (forall self' texts,
     call_kw (assess_fairness_method self') evaluate_keywords kw s = (Raise TypeError, s) /\
     call_kw (assess_transparency_method texts) evaluate_keywords kw s
     = (Raise TypeError, s) /\
     call_kw (assess_privacy_method texts) evaluate_keywords kw s = (Raise TypeError, s) /\
     call_kw (assess_robustness_method self') evaluate_keywords kw s
     = (Raise TypeError, s)).
Proof.
  intros Hinit Hfair. split; [|intros self' texts; repeat split; reflexivity].
  unfold __init__, principle_methods in Hinit.
  apply build_principles_head in Hinit as (f & tail & Hf & ->).
  rewrite Hfair in Hf. injection Hf as <-.
  unfold evaluate. by apply evaluate_loop_rejects.
Qed.

Lemma evaluate_rejects_keyword_bundle_witness :
  is_ok (__init__ subclass_namespace) = true /\
  exists principles,
    __init__ subclass_namespace = Ok principles /\
    evaluate principles sample_kwargs zero_state = (Raise TypeError, zero_state).
Proof.
  split; [reflexivity|]. eexists. split; [reflexivity|].
  apply (evaluate_rejects_keyword_bundle unit subclass_namespace _ AIEthicsFramework
           sample_kwargs zero_state eq_refl eq_refl).
Defined.

(** ** More on demographic parity *)

(** X11.  A score map returned by [_calculate_demographic_parity] has
    exactly the listed attributes as keys, and the entry of an attribute is
    the score the call returns when that attribute is listed alone: it does
    not depend on the other attributes, their order or their repetition. *)
Theorem parity_entries_are_independent model data attrs dp s :
  outcome (_calculate_demographic_parity model data attrs) s = Ok dp ->
  (forall a, is_Some (dp !! a) <-> a ∈ attrs) /\
  (forall a, a ∈ attrs ->
     exists v, dp !! a = Some v /\
               outcome (_calculate_demographic_parity model data [a]) s
               = Ok {[a := v]}).
Proof.
  unfold outcome. rewrite !demographic_parity_run. simpl fst.
  destruct (predict model data) as [predictions|e] eqn:Hp; [|discriminate].
  intros Hloop.
  pose proof (parity_loop_ok_inv _ _ _ _ _ Hloop) as Hall.
  destruct (parity_loop_ok predictions data attrs ∅ Hall) as (dp' & Hdp' & Hin & Hout).
  rewrite Hloop in Hdp'. injection Hdp' as <-. split.
  - intros a. split.
    + intros [v Hv]. destruct (decide (a ∈ attrs)) as [|Hn]; [done|].
      rewrite (Hout a Hn), lookup_empty in Hv. discriminate.
    + intros Ha. destruct (Hin a Ha) as (v & _ & Hv). by exists v.
  - intros a Ha. destruct (Hin a Ha) as (v & Hv & Hlook). exists v.
    split; [done|]. rewrite demographic_parity_run, Hp. simpl.
    rewrite Hv, result_bind_ok. by rewrite insert_empty.
Qed.

Lemma parity_entries_are_independent_witness :
  exists dp,
    outcome (_calculate_demographic_parity (fixed_model [1; 1; 0; 0]%Q)
               region_frame ["region"; "region"]) zero_state = Ok dp /\
    (forall a, is_Some (dp !! a) <-> a ∈ ["region"; "region"]) /\
    (forall a, a ∈ ["region"; "region"] ->
       exists v, dp !! a = Some v /\
                 outcome (_calculate_demographic_parity (fixed_model [1; 1; 0; 0]%Q)
                            region_frame [a]) zero_state
                 = Ok {[a := v]}).
Proof.
  eexists. split; [vm_compute; reflexivity|].
  apply (parity_entries_are_independent (fixed_model [1; 1; 0; 0]%Q) region_frame
           ["region"; "region"] _ zero_state).
  vm_compute. reflexivity.
Defined.

(** X12.  On a frame without records the call raises [ValueError] as soon
    as the first listed attribute is a column: there is no group, and
    [max] is applied to an empty sequence. *)
Theorem empty_dataset_raises_ValueError model data a rest predictions s :
  predict model data = Ok predictions ->
  getitem data a = Ok [] ->
  outcome (_calculate_demographic_parity model data (a :: rest)) s
  = Raise ValueError.
Proof.
  intros Hp Hcol. unfold outcome. rewrite demographic_parity_run, Hp. simpl.
  unfold attribute_parity. rewrite Hcol. reflexivity.
Qed.

Lemma empty_dataset_raises_ValueError_witness :
  outcome (_calculate_demographic_parity (constant_model 1) empty_frame
             ["income"; "age"]) zero_state
  = Raise ValueError.
Proof.
  apply (empty_dataset_raises_ValueError (constant_model 1) empty_frame
           "income" ["age"] [] zero_state); reflexivity.
Defined.

(** X13.  When the model returns a prediction vector whose length differs
    from the number of records, the call raises [IndexError] at the first
    listed attribute that is a non-empty column: the boolean mask does not
    fit the predictions. *)
Theorem misaligned_predictions_raise_IndexError
    model data a rest predictions col s :
  predict model data = Ok predictions ->
  getitem data a = Ok col ->
  col <> [] ->
  length predictions <> length col ->
  outcome (_calculate_demographic_parity model data (a :: rest)) s
  = Raise IndexError.
Proof.
  intros Hp Hcol Hne Hlen. unfold outcome. rewrite demographic_parity_run, Hp. simpl.
  unfold attribute_parity. rewrite Hcol, result_bind_ok.
  destruct (unique col) as [|g groups] eqn:Hu; [by apply unique_nil_inv in Hu|].
  cbn [group_rates_loop]. unfold getitem_mask. rewrite series_eq_length.
  destruct (Nat.eqb_spec (length col) (length predictions)) as [E|_];
    [by rewrite E in Hlen | reflexivity].
Qed.

Lemma misaligned_predictions_raise_IndexError_witness :
  outcome (_calculate_demographic_parity (fixed_model [1; 0]%Q) region_frame
             ["region"]) zero_state
  = Raise IndexError.
Proof.
  apply (misaligned_predictions_raise_IndexError (fixed_model [1; 0]%Q) region_frame
           "region" [] [1; 0]%Q region_column zero_state);
    [reflexivity | reflexivity | discriminate | simpl; lia].
Defined.

(** ** The agreement rate *)

Lemma Qsum_bools bs :
  (Qsum (map Qof_bool bs) == inject_Z (Z.of_nat (length (filter (@id bool) bs))))%Q.
Proof.
  induction bs as [|b bs IH]; [reflexivity|].
  change (Qof_bool b + Qsum (map Qof_bool bs)
          == inject_Z (Z.of_nat (length (filter (@id bool) (b :: bs)))))%Q.
  rewrite IH, filter_cons. destruct b.
  - rewrite decide_True by done. simpl length. rewrite Nat2Z.inj_succ.
    unfold Z.succ. rewrite inject_Z_plus. simpl Qof_bool. ring.
  - rewrite decide_False by (simpl; tauto). simpl Qof_bool. ring.
Qed.

Lemma np_mean_bools bs :
  bs <> [] ->
  exists q,
    np_mean (map Qof_bool bs) = Fin q /\ in_unit q /\
    (q = 1%Q <-> forall b, b ∈ bs -> b = true) /\
    (q = 0%Q <-> forall b, b ∈ bs -> b = false).
Proof.
  intros Hne.
  assert (Hlen : 0 < length bs) by (destruct bs; [done | simpl; lia]).
  assert (Hmean : np_mean (map Qof_bool bs) = fl (mean_Q (map Qof_bool bs))).
  { destruct bs; [done | reflexivity]. }
  assert (Heq : (mean_Q (map Qof_bool bs)
                 == inject_Z (Z.of_nat (length (filter (@id bool) bs)))
                    / inject_Z (Z.of_nat (length bs)))%Q).
  { unfold mean_Q. by rewrite Qsum_bools, length_map. }
  exists (Qred (mean_Q (map Qof_bool bs))). split; [exact Hmean|]. split; [|split].
  - unfold in_unit. rewrite Qred_correct, Heq.
    apply nat_ratio_unit; [done | apply length_filter].
  - transitivity (length (filter (@id bool) bs) = length bs).
    + rewrite <- (nat_ratio_one _ _ Hlen), <- Heq. split.
      * intros H. by rewrite <- H, Qred_correct.
      * intros H. change 1%Q with (Qred 1). by apply Qred_complete.
    + apply filter_length_all.
  - transitivity (length (filter (@id bool) bs) = 0).
    + rewrite <- (nat_ratio_zero _ _ Hlen), <- Heq. split.
      * intros H. by rewrite <- H, Qred_correct.
      * intros H. change 0%Q with (Qred 0). by apply Qred_complete.
    + apply filter_length_none.
Qed.

Lemma zip_Qeq_bool_all p p' :
  length p = length p' ->
  ((forall b, b ∈ zip_with Qeq_bool p p' -> b = true) <-> Forall2 Qeq p p') /\
  ((forall b, b ∈ zip_with Qeq_bool p p' -> b = false)
   <-> Forall2 (fun x y => ~ (x == y)%Q) p p').
Proof.
  revert p'. induction p as [|x p IH]; intros [|y p'] Hlen; try discriminate.
  - split; (split; [constructor|]); intros _ b Hb; by apply elem_of_nil in Hb.
  - simpl in Hlen. destruct (IH p') as [IH1 IH0]; [lia|]. simpl. split.
    + split.
      * intros H. constructor.
        -- apply Qeq_bool_iff. apply H. left.
        -- apply IH1. intros b Hb. apply H. by right.
      * intros H. inversion H as [|? ? ? ? Hxy Hrest]; subst. intros b Hb.
        apply elem_of_cons in Hb as [->|Hb]; [by apply Qeq_bool_iff|].
        by apply IH1.
    + split.
      * intros H. constructor.
        -- intros Hxy. apply Qeq_bool_iff in Hxy.
           rewrite (H (Qeq_bool x y)) in Hxy; [discriminate | left].
        -- apply IH0. intros b Hb. apply H. by right.
      * intros H. inversion H as [|? ? ? ? Hxy Hrest]; subst. intros b Hb.
        apply elem_of_cons in Hb as [->|Hb]; [|by apply IH0].
        apply not_true_is_false. intros E. by apply Qeq_bool_iff in E.
Qed.

(** X16.  When the perturbation succeeds and the model returns two
    prediction vectors of the same non-zero length, the adversarial
    robustness score is a number between 0 and 1; it is exactly 1 when the
    two vectors agree at every record and exactly 0 when they differ at
    every record. *)
Theorem adversarial_score_is_agreement_rate epsilon model data s d' p p' :
  outcome (perturb epsilon data) s = Ok d' ->
  predict model data = Ok p ->
  predict model d' = Ok p' ->
  length p = length p' ->
  p <> [] ->
  exists q,
    outcome (adversarial_robustness_at epsilon model data) s = Ok (Fin q) /\
    in_unit q /\
    (q = 1%Q <-> Forall2 Qeq p p') /\
    (q = 0%Q <-> Forall2 (fun x y => ~ (x == y)%Q) p p').
Proof.
  intros Hd Hp Hp' Hlen Hne.
  assert (Hbs : zip_with Qeq_bool p p' <> []).
  { destruct p, p'; try done. }
  destruct (np_mean_bools (zip_with Qeq_bool p p') Hbs) as (q & Hq & Hu & H1 & H0).
  destruct (zip_Qeq_bool_all p p' Hlen) as [Hall Hnone].
  exists q. split; [|split; [done|split; [by rewrite H1 | by rewrite H0]]].
  unfold outcome in *. unfold adversarial_robustness_at.
  destruct (perturb epsilon data s) as [r s'] eqn:E. simpl in Hd. subst r.
  rewrite (M_bind_ok _ _ s d' s' E).
  rewrite (M_bind_ok _ _ s' p s') by (unfold lift; by rewrite Hp).
  rewrite (M_bind_ok _ _ s' p' s') by (unfold lift; by rewrite Hp').
  rewrite (M_bind_ok _ _ s' (zip_with Qeq_bool p p') s').
  - simpl. by rewrite Hq.
  - unfold lift, np_eq. by rewrite Hlen, Nat.eqb_refl.
Qed.

Lemma adversarial_score_is_agreement_rate_witness :
  exists q,
    outcome (adversarial_robustness_at (1 # 10) threshold_model [("x", [Num 1%Q])])
            ramp_state = Ok (Fin q) /\
    in_unit q /\
    (q = 1%Q <-> Forall2 Qeq [0%Q] [1%Q]) /\
    (q = 0%Q <-> Forall2 (fun x y => ~ (x == y)%Q) [0%Q] [1%Q]).
Proof.
  apply (adversarial_score_is_agreement_rate (1 # 10) threshold_model
           [("x", [Num 1%Q])] ramp_state [("x", [Num (11 # 10)%Q])] [0%Q] [1%Q]).
  - vm_compute. reflexivity.
  - reflexivity.
  - reflexivity.
  - reflexivity.
  - discriminate.
Defined.

(** ** Shape of the perturbed frame *)

Lemma zip_shift_numeric col zs :
  forallb is_num col = true -> forallb is_num (zip_with shift_cell col zs) = true.
Proof.
  revert zs. induction col as [|c col IH]; intros [|z zs] H; simpl in *;
    try reflexivity.
  apply andb_prop in H as [Hc H]. destruct c; [|discriminate|]; simpl; by apply IH.
Qed.

Lemma shifted_from_columns j data noise :
  numeric_frame data = true ->
  Forall (fun c => length (snd c) = length noise) data ->
  Forall (fun c => length (snd c) = length noise) (shifted_from j data noise) /\
  numeric_frame (shifted_from j data noise) = true /\
  length (shifted_from j data noise) = length data.
Proof.
  intros Hnum H. revert j Hnum.
  induction H as [|[name col] rest Hc Hrest IH]; intros j Hnum; simpl.
  - by repeat split.
  - simpl in Hnum, Hc. apply andb_prop in Hnum as [Hcol Hnum].
    destruct (IH (S j) Hnum) as (IH1 & IH2 & IH3). split; [|split].
    + constructor; [|done]. simpl.
      rewrite length_zip_with, array_column_length. lia.
    + by rewrite zip_shift_numeric, IH2.
    + by rewrite IH3.
Qed.

(** X17.  Perturbing a well-formed frame whose cells are all numbers
    returns a well-formed, all-numeric frame of the same shape with the same
    column names, and advances the random generator by exactly one draw per
    cell. *)
Theorem perturbation_preserves_shape epsilon data s :
  wf_frame data = true ->
  numeric_frame data = true ->
  exists d',
    perturb epsilon data s
    = (Ok d', mkRandomState (gauss s) (position s + nrows data * ncols data)) /\
    shape d' = shape data /\
    column_names d' = column_names data /\
    wf_frame d' = true /\
    numeric_frame d' = true.
Proof.
  intros Hwf Hnum.
  pose proof (perturb_result epsilon data s Hwf) as Hr. rewrite Hnum in Hr.
  set (noise := noise_array 0 epsilon data s) in *.
  assert (Hlen : Forall (fun c => length (snd c) = length noise) data).
  { unfold noise. rewrite noise_array_length. by apply wf_frame_lengths. }
  destruct (shifted_from_columns 0 data noise Hnum Hlen) as (Hcols & Hn & Hc).
  exists (shifted_from 0 data noise). split; [|split; [|split; [|split]]].
  - rewrite perturb_run. f_equal. unfold outcome in Hr.
    rewrite perturb_run in Hr. exact Hr.
  - unfold shape, ncols. by rewrite shifted_from_nrows, Hc.
  - apply shifted_from_names.
  - unfold wf_frame. apply forallb_forall. intros c Hin. apply Nat.eqb_eq.
    rewrite shifted_from_nrows by done. apply list_elem_of_In in Hin.
    rewrite Forall_forall in Hcols. rewrite (Hcols c Hin).
    unfold noise. apply noise_array_length.
  - exact Hn.
Qed.

Lemma perturbation_preserves_shape_witness :
  exists d',
    perturb (1 # 10) coded_frame ramp_state
    = (Ok d', mkRandomState (gauss ramp_state)
                (position ramp_state + nrows coded_frame * ncols coded_frame)) /\
    shape d' = shape coded_frame /\
    column_names d' = column_names coded_frame /\
    wf_frame d' = true /\
    numeric_frame d' = true.
Proof.
  apply (perturbation_preserves_shape (1 # 10) coded_frame ramp_state); reflexivity.
Defined.

(** ** The fairness report and the errors of the adversarial check *)

(** X19.  Once the two missing fairness metrics exist and return, the
    report of [assess_fairness] has exactly the three keys
    "demographic_parity", "equal_opportunity" and "disparate_impact", each
    holding the map returned by the corresponding method. *)
Theorem assess_fairness_report_with_helpers
    self model data attrs eo_method di_method s dp eo di s1 s2 s3 :
  _calculate_equal_opportunity self = Some eo_method ->
  _calculate_disparate_impact self = Some di_method ->
  _calculate_demographic_parity model data attrs s = (Ok dp, s1) ->
  eo_method model data attrs s1 = (Ok eo, s2) ->
  di_method model data attrs s2 = (Ok di, s3) ->
  exists report,
    assess_fairness self model data attrs s = (Ok report, s3) /\
    report !! "demographic_parity" = Some dp /\
    report !! "equal_opportunity" = Some eo /\
    report !! "disparate_impact" = Some di /\
    (forall key, is_Some (report !! key) ->
       key = "demographic_parity" \/ key = "equal_opportunity"
       \/ key = "disparate_impact").
Proof.
  intros Heo Hdi Hdp Heo' Hdi'. eexists. split.
  - unfold assess_fairness.
    rewrite (M_bind_ok _ _ s dp s1 Hdp), Heo.
    rewrite (M_bind_ok _ _ s1 eo_method s1) by reflexivity.
    rewrite (M_bind_ok _ _ s1 eo s2 Heo'), Hdi.
    rewrite (M_bind_ok _ _ s2 di_method s2) by reflexivity.
    rewrite (M_bind_ok _ _ s2 di s3 Hdi'). reflexivity.
  - split; [by simplify_map_eq|]. split; [by simplify_map_eq|].
    split; [by simplify_map_eq|].
    intros key [v Hv].
    destruct (decide (key = "disparate_impact")) as [|N1]; [auto|].
    destruct (decide (key = "equal_opportunity")) as [|N2]; [auto|].
    destruct (decide (key = "demographic_parity")) as [|N3]; [auto|].
    rewrite !lookup_insert_ne, lookup_empty in Hv by done. discriminate.
Qed.

Lemma assess_fairness_report_with_helpers_witness :
  exists report,
    assess_fairness stub_fair_instance (fixed_model [1; 1; 0; 0]%Q) region_frame
      ["region"] zero_state = (Ok report, zero_state) /\
    report !! "demographic_parity" = Some {["region" := Fin 0%Q]} /\
    report !! "equal_opportunity" = Some {["region" := Fin 1%Q]} /\
    report !! "disparate_impact" = Some {["region" := Fin (1 # 2)%Q]} /\
    (forall key, is_Some (report !! key) ->
       key = "demographic_parity" \/ key = "equal_opportunity"
       \/ key = "disparate_impact").
Proof.
  apply (assess_fairness_report_with_helpers stub_fair_instance
           (fixed_model [1; 1; 0; 0]%Q) region_frame ["region"]
           (stub_metric 1) (stub_metric (1 # 2)) zero_state
           {["region" := Fin 0%Q]} {["region" := Fin 1%Q]} {["region" := Fin (1 # 2)%Q]}
           zero_state zero_state zero_state).
  - reflexivity.
  - reflexivity.
  - vm_compute. reflexivity.
  - vm_compute. reflexivity.
  - vm_compute. reflexivity.
Defined.

(** X20.  Errors of the adversarial check come in the order of its steps.
    On a well-formed frame that holds a string cell it raises [TypeError]
    whatever the model, which is never queried; on a numeric frame an
    exception of [model.predict] on the original frame is raised as it is. *)
Theorem adversarial_check_errors model data s :
  wf_frame data = true ->
  (numeric_frame data = false ->
   outcome (_check_adversarial_robustness model data) s = Raise TypeError) /\
  (forall e, numeric_frame data = true -> predict model data = Raise e ->
     outcome (_check_adversarial_robustness model data) s = Raise e).
Proof.
  intros Hwf.
  pose proof (perturb_result (1 # 10) data s Hwf) as Hr. unfold outcome in *.
  unfold _check_adversarial_robustness, adversarial_robustness_at.
  destruct (perturb (1 # 10) data s) as [r s'] eqn:E. simpl in Hr.
  split.
  - intros Hnum. rewrite Hnum in Hr. subst r.
    unfold mbind, M_bind. cbv zeta. by rewrite E.
  - intros e Hnum He. rewrite Hnum in Hr. subst r. cbv zeta.
    rewrite (M_bind_ok _ _ s _ s' E).
    unfold mbind, M_bind, lift. by rewrite He.
Qed.

Lemma adversarial_check_errors_witness :
  outcome (_check_adversarial_robustness (mkModel (fun _ => Raise ValueError))
             region_frame) zero_state = Raise TypeError /\
  outcome (_check_adversarial_robustness (mkModel (fun _ => Raise ValueError))
             coded_frame) zero_state = Raise ValueError.
Proof.
  split.
  - apply (proj1 (adversarial_check_errors (mkModel (fun _ => Raise ValueError))
                    region_frame zero_state eq_refl)).
    reflexivity.
  - apply (proj2 (adversarial_check_errors (mkModel (fun _ => Raise ValueError))
                    coded_frame zero_state eq_refl) ValueError); reflexivity.
Defined.

(** ** Instances of the statements above *)

Lemma keyword_checks_full_and_empty_witness :
  (forall k, k ∈ architecture_keywords ->
     exists pre post,
       lower "Architecture: 3 LAYERS of neurons, ReLU activation functions"
       = pre +:+ k +:+ post) /\
  _check_model_architecture_disclosure
    "Architecture: 3 LAYERS of neurons, ReLU activation functions" = Ok (Fin 1%Q).
Proof.
  assert (H : forall k, k ∈ architecture_keywords ->
            exists pre post,
              lower "Architecture: 3 LAYERS of neurons, ReLU activation functions"
              = pre +:+ k +:+ post).
  { intros k Hk. unfold architecture_keywords in Hk.
    apply elem_of_cons in Hk as [->|Hk];
      [exists "", ": 3 layers of neurons, relu activation functions"; reflexivity|].
    apply elem_of_cons in Hk as [->|Hk];
      [exists "architecture: 3 ", " of neurons, relu activation functions"; reflexivity|].
    apply elem_of_cons in Hk as [->|Hk];
      [exists "architecture: 3 layers of ", ", relu activation functions"; reflexivity|].
    apply elem_of_cons in Hk as [->|Hk];
      [exists "architecture: 3 layers of neurons, relu ", ""; reflexivity|].
    by apply elem_of_nil in Hk. }
  split; [exact H|].
  exact (proj2 (proj1 (keyword_checks_full_and_empty
                  "Architecture: 3 LAYERS of neurons, ReLU activation functions")) H).
Defined.

Lemma constructor_needs_all_assessments_witness :
  (forall entry, entry ∈ principle_methods ->
     is_ok (lookup_method subclass_namespace (snd entry)) = true) /\
  is_ok (__init__ subclass_namespace) = true.
Proof.
  assert (H : forall entry, entry ∈ principle_methods ->
            is_ok (lookup_method subclass_namespace (snd entry)) = true).
  { intros entry He. unfold principle_methods in He.
    repeat (apply elem_of_cons in He as [->|He]; [reflexivity|]).
    by apply elem_of_nil in He. }
  split; [exact H|].
  exact (proj2 (proj1 (proj1 constructor_needs_all_assessments unit subclass_namespace))
           H).
Defined.
